(** * The hp DoF index store: [internal::hp::DoFLevel]

    A shallow embedding of the accessor functions of
    [deal.II/include/deal.II/hp/dof_levels.h] and the properties the
    specification states about them.

    Conventions of the embedding.
    - Unsigned integers ([unsigned int], [types::global_dof_index],
      [size_type]) are values of [N]; the one arithmetic operation of the
      header, [dof_offsets[obj_index]+local_index], is computed in
      [size_type] and its wrap-around is written out.
    - A [std::vector] is a [list]; [operator[]] out of range is undefined
      behaviour in C++ and yields [Undefined] here.
    - [Assert (cond, exc)] is modelled as in a debug build: when [cond] is
      false the operation ends with the exception [exc].
    - The store is passed explicitly: [set_dof_index] returns the new
      store. *)

From Stdlib Require Import NArith Lia String.
From stdpp Require Import base option list.

Local Open Scope string_scope.
Local Open Scope N_scope.

(** ** Exceptions and results *)

(** The exception objects built in the header. *)
Inductive Exc : Type :=
| ExcMessage (msg : string)
| ExcIndexRange (index lower upper : N)
| ExcInternalError.

Inductive result (A : Type) : Type :=
| Ok (a : A)
| Throw (e : Exc)
| Undefined.

Arguments Ok {A} a.
Arguments Throw {A} e.
Arguments Undefined {A}.

#[global] Instance result_ret : MRet result := fun A a => Ok a.

#[global] Instance result_bind : MBind result := fun A B f m =>
  match m with
  | Ok a => f a
  | Throw e => Throw e
  | Undefined => Undefined
  end.

Definition Assert (cond : bool) (exc : Exc) : result unit :=
  if cond then Ok tt else Throw exc.

(** [v[i]] on a [std::vector]. *)
Definition vector_at {A : Type} (v : list A) (i : N) : result A :=
  match v !! N.to_nat i with
  | Some x => Ok x
  | None => Undefined
  end.

(** [v.size()]. *)
Definition vector_size {A : Type} (v : list A) : N := N.of_nat (length v).

(** [v[i] = x] on a [std::vector]. *)
Definition vector_assign {A : Type} (v : list A) (i : N) (x : A)
  : result (list A) :=
  if i <? vector_size v then Ok (<[N.to_nat i := x]> v) else Undefined.

(** [&x != 0] for an object [x] bound to a C++ reference: the address of
    a referenced object is never null. *)
Definition address_not_null {A : Type} (x : A) : bool := true.

(** ** The collaborators *)

(** Modelled from the spec: the finite element declares, for each object
    dimension, the number of DoFs it places on such an object
    ([dofs_per_object(variant, structdim)], [n_dofs_per_object<dim>()] in
    the header); the class is declared outside this header. *)
Record FiniteElement : Type :=
  { n_dofs_per_object : nat -> N }.

(** Modelled from the spec: the element collection that the store
    borrows and never mutates. The header reaches it through the handler
    as [dof_handler.get_fe()], with [size()] and [operator[]]; the
    classes are declared outside this header. *)
Record DoFHandler : Type :=
  { get_fe : list FiniteElement }.

(** The three member vectors of [DoFLevel<dim>]. *)
Record DoFLevel : Type :=
  { active_fe_indices : list N;
    dof_offsets : list N;
    dofs : list N }.

(** ** The failure names of the specification

    Each name of the specification's error taxonomy stands for the
    exception object that the corresponding [Assert] of the header
    builds. *)

Definition UnspecifiedVariant : Exc :=
  ExcMessage "You need to specify a FE index when working with hp DoFHandlers".

Definition NoDoFsHere : Exc :=
  ExcMessage "You are trying to access degree of freedom information for an object on which no such information is available".

Definition WrongVariant : Exc :=
  ExcMessage "FE index does not match that of the present cell".

Definition VariantOutOfRange (variant collection_size : N) : Exc :=
  ExcIndexRange variant 0 collection_size.

Definition LocalSlotOutOfRange (local_slot k : N) : Exc :=
  ExcIndexRange local_slot 0 k.

Definition ObjectIndexOutOfRange (object n_objects : N) : Exc :=
  ExcIndexRange object 0 n_objects.

Definition IndexOutOfRange (n : N) : Exc :=
  ExcIndexRange n 0 1.

(** ** The linked list of the specification

    Reference definitions written after the specification's words
    (data model, invariant 3, and the sub-cell case of the addressing
    scheme), for comparison with the accessor functions above. They are
    not translated from the header, whose functions contain no loop. *)

Module SubCellList.

Inductive outcome : Type :=
  | Value (g : N)
  | VariantNotOnObject
  | PastPayload.

Section Walk.

Variable TERM : N.
Variable structdim : nat.
Variable collection : list FiniteElement.
Variable payload : list N.

(** Steps 1 to 4 of the scan: the cursor of the record of [variant],
    starting from [cursor]. [fuel] bounds the number of records
    visited. *)
Fixpoint locate (fuel : nat) (cursor variant : N) : option (option N) :=
  match fuel with
  | O => None
  | S fuel' =>
      match payload !! N.to_nat cursor with
      | None => None
      | Some v_j =>
          if v_j =? TERM then Some None
          else if v_j =? variant then Some (Some cursor)
          else
            match collection !! N.to_nat v_j with
            | None => None
            | Some fe =>
                locate fuel' (cursor + 1 + n_dofs_per_object fe structdim)
                  variant
            end
      end
  end.

(** The read of the sub-cell case: [dofs[cursor + 1 + l]]. *)
Definition read (offsets : list N) (i variant local_slot : N) : outcome :=
  match offsets !! N.to_nat i with
  | None => PastPayload
  | Some p =>
      match locate (length payload) p variant with
      | None => PastPayload
      | Some None => VariantNotOnObject
      | Some (Some cursor) =>
          match payload !! N.to_nat (cursor + 1 + local_slot) with
          | Some g => Value g
          | None => PastPayload
          end
      end
  end.

(** The variant ids of the records from [cursor] up to [TERM], in the
    order stored. *)
Fixpoint variants_from (fuel : nat) (cursor : N) : option (list N) :=
  match fuel with
  | O => None
  | S fuel' =>
      match payload !! N.to_nat cursor with
      | None => None
      | Some v_j =>
          if v_j =? TERM then Some []
          else
            match collection !! N.to_nat v_j with
            | None => None
            | Some fe =>
                cons v_j <$>
                  variants_from fuel'
                    (cursor + 1 + n_dofs_per_object fe structdim)
            end
      end
  end.

Definition variants (offsets : list N) (i : N) : option (list N) :=
  p ← offsets !! N.to_nat i ;
  variants_from (length payload) p.

End Walk.

End SubCellList.

(** ** Concrete stores *)

(** Modelled from the spec: the sentinels are the maximum of the
    unsigned index type (design notes, sentinel overloading). The
    concrete stores below take [unsigned int] of 32 bits for both
    sentinels and a [size_type] of 64 bits; the theorems hold for every
    choice. *)
Definition invalid_unsigned_int : N := 4294967295.
Definition size_type_values : N := 18446744073709551616.
Definition unsigned_int_values : N := 4294967296.

(** A finite element that places [k] DoFs on the objects of every
    dimension. *)
Definition fe_with (k : N) : FiniteElement :=
  {| n_dofs_per_object := fun _ => k |}.

(** The collection of the specification's scenarios: variant 0 places 2
    DoFs, variant 1 places 3, variant 2 places 1. *)
Definition scenario_handler : DoFHandler :=
  {| get_fe := [fe_with 2; fe_with 3; fe_with 1] |}.

(** Scenario A after reserve: three cells with variants 0, 1, 0. *)
Definition scenario_A : DoFLevel :=
  {| active_fe_indices := [0; 1; 0];
     dof_offsets := [0; 2; 5];
     dofs := replicate 7 invalid_unsigned_int |}.

(** Scenario B after populating: a sub-cell level of two objects, the
    first shared by the variants 0 and 2, the second carrying variant 1;
    [active] is not populated below the cell dimension. *)
Definition scenario_B : DoFLevel :=
  {| active_fe_indices := [];
     dof_offsets := [0; 6];
     dofs := [0; 100; 101; 2; 102; invalid_unsigned_int;
              1; 103; 104; 105; invalid_unsigned_int] |}.

(** A collection of eight variants, each placing 2 DoFs on an object. *)
Definition eight_variants : DoFHandler :=
  {| get_fe := replicate 8 (fe_with 2) |}.

(** A sub-cell object carrying the variants 3 and 7. *)
Definition payload_3_7 : list N :=
  [3; 30; 31; 7; 70; 71; invalid_unsigned_int].

Definition subcell_3_7 (active : list N) : DoFLevel :=
  {| active_fe_indices := active;
     dof_offsets := [0];
     dofs := payload_3_7 |}.

(** ** The accessor functions *)

Section Accessors.

(** Constants and types declared outside the header:
    [numbers::invalid_dof_index], [hp::DoFHandler::default_fe_index],
    and the numbers of values of [size_type] and of [unsigned int]. *)
Variable invalid_dof_index : N.
Variable default_fe_index : N.
Variable size_type_modulus : N.
Variable unsigned_int_modulus : N.

Definition static_cast_unsigned_int (x : N) : N := x mod unsigned_int_modulus.

(** [dim] is the template argument of the class, [dimm] that of the
    [DoFHandler] passed in ([spacedim] takes no part in any
    computation). *)
Variables dim dimm : nat.

Definition get_dof_index (dof_handler : DoFHandler) (self : DoFLevel)
    (obj_index fe_index local_index obj_level : N) : result N :=
  Assert (negb (fe_index =? default_fe_index))
    (ExcMessage "You need to specify a FE index when working with hp DoFHandlers") ;;
  Assert (address_not_null dof_handler)
    (ExcMessage "No DoFHandler is specified for this iterator") ;;
  Assert (address_not_null (get_fe dof_handler))
    (ExcMessage "No finite element collection is associated with this DoFHandler") ;;
  Assert (fe_index <? vector_size (get_fe dof_handler))
    (ExcIndexRange fe_index 0 (vector_size (get_fe dof_handler))) ;;
  fe ← vector_at (get_fe dof_handler) fe_index ;
  Assert (local_index <? n_dofs_per_object fe dim)
    (ExcIndexRange local_index 0 (n_dofs_per_object fe dim)) ;;
  Assert (obj_index <? vector_size (dof_offsets self))
    (ExcIndexRange obj_index 0 (vector_size (dof_offsets self))) ;;
  offset ← vector_at (dof_offsets self) obj_index ;
  Assert (negb (offset =? invalid_dof_index))
    (ExcMessage "You are trying to access degree of freedom information for an object on which no such information is available") ;;
  active ← vector_at (active_fe_indices self) obj_index ;
  Assert (fe_index =? active)
    (ExcMessage "FE index does not match that of the present cell") ;;
  vector_at (dofs self) ((offset + local_index) mod size_type_modulus).

Definition set_dof_index (dof_handler : DoFHandler) (self : DoFLevel)
    (obj_index fe_index local_index global_index obj_level : N)
  : result DoFLevel :=
  Assert (negb (fe_index =? default_fe_index))
    (ExcMessage "You need to specify a FE index when working with hp DoFHandlers") ;;
  Assert (address_not_null dof_handler)
    (ExcMessage "No DoFHandler is specified for this iterator") ;;
  Assert (address_not_null (get_fe dof_handler))
    (ExcMessage "No finite element collection is associated with this DoFHandler") ;;
  Assert (fe_index <? vector_size (get_fe dof_handler))
    (ExcIndexRange fe_index 0 (vector_size (get_fe dof_handler))) ;;
  fe ← vector_at (get_fe dof_handler) fe_index ;
  Assert (local_index <? n_dofs_per_object fe dim)
    (ExcIndexRange local_index 0 (n_dofs_per_object fe dim)) ;;
  Assert (obj_index <? vector_size (dof_offsets self))
    (ExcIndexRange obj_index 0 (vector_size (dof_offsets self))) ;;
  offset ← vector_at (dof_offsets self) obj_index ;
  Assert (negb (offset =? invalid_dof_index))
    (ExcMessage "You are trying to access degree of freedom information for an object on which no such information is available") ;;
  active ← vector_at (active_fe_indices self) obj_index ;
  Assert (fe_index =? active)
    (ExcMessage "FE index does not match that of the present cell") ;;
  dofs' ← vector_assign (dofs self)
            ((offset + local_index) mod size_type_modulus) global_index ;
  mret {| active_fe_indices := active_fe_indices self;
          dof_offsets := dof_offsets self;
          dofs := dofs' |}.

Definition n_active_fe_indices (dof_handler : DoFHandler) (self : DoFLevel)
    (obj_index : N) : result N :=
  Assert (Nat.leb dim dimm) ExcInternalError ;;
  Assert (address_not_null dof_handler)
    (ExcMessage "No DoFHandler is specified for this iterator") ;;
  Assert (address_not_null (get_fe dof_handler))
    (ExcMessage "No finite element collection is associated with this DoFHandler") ;;
  Assert (obj_index <? vector_size (dof_offsets self))
    (ExcIndexRange obj_index 0 (vector_size (dof_offsets self))) ;;
  offset ← vector_at (dof_offsets self) obj_index ;
  if offset =? invalid_dof_index then mret 0
  else mret 1.

Definition nth_active_fe_index (dof_handler : DoFHandler) (self : DoFLevel)
    (obj_level obj_index n : N) : result N :=
  Assert (Nat.leb dim dimm) ExcInternalError ;;
  Assert (address_not_null dof_handler)
    (ExcMessage "No DoFHandler is specified for this iterator") ;;
  Assert (address_not_null (get_fe dof_handler))
    (ExcMessage "No finite element collection is associated with this DoFHandler") ;;
  Assert (obj_index <? vector_size (dof_offsets self))
    (ExcIndexRange obj_index 0 (vector_size (dof_offsets self))) ;;
  offset ← vector_at (dof_offsets self) obj_index ;
  Assert (negb (offset =? invalid_dof_index))
    (ExcMessage "You are trying to access degree of freedom information for an object on which no such information is available") ;;
  Assert (n =? 0) (ExcIndexRange n 0 1) ;;
  vector_at (active_fe_indices self) obj_index.

Definition fe_index_is_active (dof_handler : DoFHandler) (self : DoFLevel)
    (obj_index fe_index obj_level : N) : result bool :=
  Assert (address_not_null dof_handler)
    (ExcMessage "No DoFHandler is specified for this iterator") ;;
  Assert (address_not_null (get_fe dof_handler))
    (ExcMessage "No finite element collection is associated with this DoFHandler") ;;
  Assert (obj_index <? vector_size (dof_offsets self))
    (ExcIndexRange obj_index 0
       (static_cast_unsigned_int (vector_size (dof_offsets self)))) ;;
  Assert (negb (fe_index =? default_fe_index))
    (ExcMessage "You need to specify a FE index when working with hp DoFHandlers") ;;
  Assert (fe_index <? vector_size (get_fe dof_handler))
    (ExcIndexRange fe_index 0 (vector_size (get_fe dof_handler))) ;;
  offset ← vector_at (dof_offsets self) obj_index ;
  Assert (negb (offset =? invalid_dof_index))
    (ExcMessage "You are trying to access degree of freedom information for an object on which no such information is available") ;;
  Assert (obj_index <? vector_size (active_fe_indices self))
    ExcInternalError ;;
  active ← vector_at (active_fe_indices self) obj_index ;
  mret (fe_index =? active).

(** The checks and the index computation that [get_dof_index] and
  [set_dof_index] have in common, up to the access to [dofs]. This
  is a device of the proofs: [get_dof_index_slot] and
  [set_dof_index_slot] below relate it to the two functions. *)
Definition slot_address (dof_handler : DoFHandler) (self : DoFLevel)
  (obj_index fe_index local_index : N) : result N :=
  Assert (negb (fe_index =? default_fe_index))
    (ExcMessage "You need to specify a FE index when working with hp DoFHandlers") ;;
  Assert (fe_index <? vector_size (get_fe dof_handler))
    (ExcIndexRange fe_index 0 (vector_size (get_fe dof_handler))) ;;
  fe ← vector_at (get_fe dof_handler) fe_index ;
  Assert (local_index <? n_dofs_per_object fe dim)
    (ExcIndexRange local_index 0 (n_dofs_per_object fe dim)) ;;
  Assert (obj_index <? vector_size (dof_offsets self))
    (ExcIndexRange obj_index 0 (vector_size (dof_offsets self))) ;;
  offset ← vector_at (dof_offsets self) obj_index ;
  Assert (negb (offset =? invalid_dof_index))
    (ExcMessage "You are trying to access degree of freedom information for an object on which no such information is available") ;;
  active ← vector_at (active_fe_indices self) obj_index ;
  Assert (fe_index =? active)
    (ExcMessage "FE index does not match that of the present cell") ;;
  mret ((offset + local_index) mod size_type_modulus).

(** Invariants 2 and 5 of the data model for the blocks of a level: the
    block of every allocated object lies inside [dofs], the blocks of two
    objects do not overlap, and [dofs] is addressable by [size_type]. *)
Definition block (dof_handler : DoFHandler) (self : DoFLevel) (i : nat)
    (first past : N) : Prop :=
  ∃ active fe,
    dof_offsets self !! i = Some first ∧ first ≠ invalid_dof_index ∧
    active_fe_indices self !! i = Some active ∧
    get_fe dof_handler !! N.to_nat active = Some fe ∧
    past = first + n_dofs_per_object fe dim.

Definition blocks_reserved (dof_handler : DoFHandler) (self : DoFLevel)
  : Prop :=
  vector_size (dofs self) ≤ size_type_modulus ∧
  ∀ i first past,
    block dof_handler self i first past → past ≤ vector_size (dofs self).

Definition blocks_disjoint (dof_handler : DoFHandler) (self : DoFLevel)
  : Prop :=
  ∀ i j first_i past_i first_j past_j,
    i ≠ j →
    block dof_handler self i first_i past_i →
    block dof_handler self j first_j past_j →
    past_i ≤ first_j ∨ past_j ≤ first_i.

(** *** Vectors *)

Lemma vector_at_lookup {A : Type} (v : list A) (i : N) (x : A) :
  v !! N.to_nat i = Some x → vector_at v i = Ok x.
Proof. unfold vector_at. by intros ->. Qed.

Lemma vector_at_Ok {A : Type} (v : list A) (i : N) (x : A) :
  vector_at v i = Ok x → v !! N.to_nat i = Some x.
Proof. unfold vector_at. by destruct (v !! N.to_nat i); intros [= ->]. Qed.

Lemma vector_size_lookup {A : Type} (v : list A) (i : N) (x : A) :
  v !! N.to_nat i = Some x → (i <? vector_size v) = true.
Proof.
  intros H. apply lookup_lt_Some in H.
  apply N.ltb_lt. unfold vector_size. lia.
Qed.

Lemma vector_size_lt {A : Type} (v : list A) (i : N) :
  i < vector_size v → ∃ x, v !! N.to_nat i = Some x.
Proof.
  unfold vector_size. intros H.
  apply lookup_lt_is_Some_2. lia.
Qed.

Lemma vector_assign_other {A : Type} (v v' : list A) (i j : N) (x : A) :
  vector_assign v i x = Ok v' → i ≠ j → vector_at v' j = vector_at v j.
Proof.
  unfold vector_assign. destruct (i <? vector_size v); intros [= <-] Hne.
  unfold vector_at. rewrite list_lookup_insert_ne; [done | lia].
Qed.

Lemma vector_assign_lt {A : Type} (v : list A) (i : N) (x : A) :
  i < vector_size v → vector_assign v i x = Ok (<[N.to_nat i := x]> v).
Proof.
  intros H. unfold vector_assign.
  by destruct (N.ltb_spec i (vector_size v)); [| lia].
Qed.

(** *** The two accessors through [slot_address] *)

Ltac unfold_accessors :=
  unfold get_dof_index, set_dof_index, n_active_fe_indices,
    nth_active_fe_index, fe_index_is_active, slot_address,
    Assert, address_not_null, mbind, result_bind, mret, result_ret.

Lemma get_dof_index_slot dof_handler self obj_index fe_index local_index
    obj_level :
  get_dof_index dof_handler self obj_index fe_index local_index obj_level =
  slot_address dof_handler self obj_index fe_index local_index
    ≫= vector_at (dofs self).
Proof.
  unfold_accessors.
  repeat (case_match; try reflexivity).
Qed.

Lemma set_dof_index_slot dof_handler self obj_index fe_index local_index
    global_index obj_level :
  set_dof_index dof_handler self obj_index fe_index local_index global_index
    obj_level =
  slot ← slot_address dof_handler self obj_index fe_index local_index ;
  dofs' ← vector_assign (dofs self) slot global_index ;
  mret {| active_fe_indices := active_fe_indices self;
          dof_offsets := dof_offsets self;
          dofs := dofs' |}.
Proof.
  unfold_accessors.
  repeat (case_match; try reflexivity).
Qed.

Lemma slot_address_checked dof_handler self obj_index fe_index local_index
    fe offset active :
  fe_index ≠ default_fe_index →
  get_fe dof_handler !! N.to_nat fe_index = Some fe →
  local_index < n_dofs_per_object fe dim →
  dof_offsets self !! N.to_nat obj_index = Some offset →
  offset ≠ invalid_dof_index →
  active_fe_indices self !! N.to_nat obj_index = Some active →
  slot_address dof_handler self obj_index fe_index local_index =
  if fe_index =? active
  then Ok ((offset + local_index) mod size_type_modulus)
  else Throw WrongVariant.
Proof.
  intros Hv Hfe Hl Hoff Halloc Hact. unfold slot_address.
  apply N.eqb_neq in Hv as ->. apply N.eqb_neq in Halloc.
  rewrite (vector_size_lookup _ _ _ Hfe), (vector_at_lookup _ _ _ Hfe).
  apply N.ltb_lt in Hl. cbn. rewrite Hl.
  rewrite (vector_size_lookup _ _ _ Hoff), (vector_at_lookup _ _ _ Hoff).
  cbn. rewrite Halloc. rewrite (vector_at_lookup _ _ _ Hact). cbn.
  by destruct (fe_index =? active).
Qed.

Lemma slot_address_Ok dof_handler self obj_index fe_index local_index slot :
  slot_address dof_handler self obj_index fe_index local_index = Ok slot →
  ∃ fe offset,
    fe_index ≠ default_fe_index ∧
    get_fe dof_handler !! N.to_nat fe_index = Some fe ∧
    local_index < n_dofs_per_object fe dim ∧
    dof_offsets self !! N.to_nat obj_index = Some offset ∧
    offset ≠ invalid_dof_index ∧
    active_fe_indices self !! N.to_nat obj_index = Some fe_index ∧
    slot = (offset + local_index) mod size_type_modulus.
Proof.
  unfold slot_address, Assert, mbind, result_bind, mret, result_ret.
  destruct (N.eqb_spec fe_index default_fe_index) as [|Hv]; [done |]. cbn.
  destruct (fe_index <? _); [| done].
  destruct (vector_at (get_fe dof_handler) fe_index) as [fe| |] eqn:Hfe;
    [| done | done].
  destruct (N.ltb_spec local_index (n_dofs_per_object fe dim)) as [Hl|];
    [| done].
  destruct (obj_index <? _); [| done].
  destruct (vector_at (dof_offsets self) obj_index) as [offset| |] eqn:Hoff;
    [| done | done].
  destruct (N.eqb_spec offset invalid_dof_index) as [|Halloc]; [done |]. cbn.
  destruct (vector_at (active_fe_indices self) obj_index)
    as [active| |] eqn:Hact; [| done | done].
  destruct (N.eqb_spec fe_index active) as [<-|]; [| done].
  intros [= <-]. exists fe, offset.
  apply vector_at_Ok in Hfe, Hoff, Hact. done.
Qed.

(** A slot inside a reserved block is its own [size_type] value. *)
Lemma slot_in_block (offset local_index k size : N) :
  local_index < k → offset + k ≤ size → size ≤ size_type_modulus →
  (offset + local_index) mod size_type_modulus = offset + local_index ∧
  offset + local_index < size.
Proof.
  intros Hl Hk Hsize. split; [| lia].
  apply N.mod_small. lia.
Qed.

(** What [fe_index_is_active] has checked when it answers [true]. *)
Lemma fe_index_is_active_true dof_handler self obj_index fe_index obj_level :
  fe_index_is_active dof_handler self obj_index fe_index obj_level
    = Ok true →
  fe_index ≠ default_fe_index ∧
  fe_index < vector_size (get_fe dof_handler) ∧
  (∃ offset, dof_offsets self !! N.to_nat obj_index = Some offset ∧
             offset ≠ invalid_dof_index) ∧
  active_fe_indices self !! N.to_nat obj_index = Some fe_index.
Proof.
  unfold fe_index_is_active, Assert, address_not_null, mbind, result_bind,
    mret, result_ret.
  destruct (obj_index <? _); [| done].
  destruct (N.eqb_spec fe_index default_fe_index) as [|Hv]; [done |]. cbn.
  destruct (N.ltb_spec fe_index (vector_size (get_fe dof_handler)))
    as [Hsize|]; [| done].
  destruct (vector_at (dof_offsets self) obj_index) as [offset| |] eqn:Hoff;
    [| done | done].
  destruct (N.eqb_spec offset invalid_dof_index) as [|Halloc]; [done |]. cbn.
  destruct (obj_index <? _); [| done].
  destruct (vector_at (active_fe_indices self) obj_index)
    as [active| |] eqn:Hact; [| done | done].
  destruct (N.eqb_spec fe_index active) as [<-|]; [| done].
  intros _. apply vector_at_Ok in Hoff, Hact. eauto 10.
Qed.

Lemma slot_address_same_tables dof_handler self self' obj_index fe_index
    local_index :
  dof_offsets self' = dof_offsets self →
  active_fe_indices self' = active_fe_indices self →
  slot_address dof_handler self' obj_index fe_index local_index =
  slot_address dof_handler self obj_index fe_index local_index.
Proof. unfold slot_address. by intros -> ->. Qed.

Lemma set_dof_index_Ok dof_handler self self' obj_index fe_index local_index
    global_index obj_level :
  set_dof_index dof_handler self obj_index fe_index local_index global_index
    obj_level = Ok self' →
  ∃ slot dofs',
    slot_address dof_handler self obj_index fe_index local_index = Ok slot ∧
    vector_assign (dofs self) slot global_index = Ok dofs' ∧
    self' = {| active_fe_indices := active_fe_indices self;
               dof_offsets := dof_offsets self;
               dofs := dofs' |}.
Proof.
  rewrite set_dof_index_slot.
  destruct (slot_address _ _ _ _ _) as [slot| |]; [| done | done]. cbn.
  destruct (vector_assign _ _ _) as [dofs'| |] eqn:Hassign; [| done | done].
  cbn. intros [= <-]. by exists slot, dofs'.
Qed.

(** The slot of a valid request on a level whose blocks are reserved. *)
Lemma slot_address_in_block dof_handler self obj_index fe_index local_index
    slot :
  blocks_reserved dof_handler self →
  slot_address dof_handler self obj_index fe_index local_index = Ok slot →
  ∃ first past,
    block dof_handler self (N.to_nat obj_index) first past ∧
    slot = first + local_index ∧ first ≤ slot ∧ slot < past ∧
    active_fe_indices self !! N.to_nat obj_index = Some fe_index.
Proof.
  intros [Hsize Hres] Hslot.
  apply slot_address_Ok in Hslot
    as (fe & offset & Hv & Hfe & Hl & Hoff & Halloc & Hact & ->).
  exists offset, (offset + n_dofs_per_object fe dim).
  assert (block dof_handler self (N.to_nat obj_index) offset
            (offset + n_dofs_per_object fe dim)) as Hblock.
  { exists fe_index, fe. done. }
  destruct (slot_in_block offset local_index (n_dofs_per_object fe dim)
              (vector_size (dofs self))) as [-> _]; eauto.
  repeat split; [done | lia | lia | done].
Qed.

(** A write to a slot of the reserved block of an object that carries the
    variant succeeds and assigns [dofs[offset + l]]. *)
Lemma set_dof_index_in_block dof_handler self i v l g fe offset
    lvl_query lvl :
  fe_index_is_active dof_handler self i v lvl_query = Ok true →
  get_fe dof_handler !! N.to_nat v = Some fe →
  l < n_dofs_per_object fe dim →
  dof_offsets self !! N.to_nat i = Some offset →
  offset + n_dofs_per_object fe dim ≤ vector_size (dofs self) →
  vector_size (dofs self) ≤ size_type_modulus →
  slot_address dof_handler self i v l = Ok (offset + l) ∧
  offset + l < vector_size (dofs self) ∧
  set_dof_index dof_handler self i v l g lvl =
    Ok {| active_fe_indices := active_fe_indices self;
          dof_offsets := dof_offsets self;
          dofs := <[N.to_nat (offset + l) := g]> (dofs self) |}.
Proof.
  intros Hactive Hfe Hl Hoff Hblock Hsize.
  apply fe_index_is_active_true in Hactive
    as (Hv & _ & (offset' & Hoff' & Halloc) & Hact).
  assert (offset' = offset) as -> by congruence.
  destruct (slot_in_block offset l _ _ Hl Hblock Hsize) as [Hmod Hlt].
  assert (slot_address dof_handler self i v l = Ok (offset + l)) as Hslot.
  { rewrite (slot_address_checked _ _ _ _ _ fe offset v) by done.
    by rewrite N.eqb_refl, Hmod. }
  repeat split; [done | done |].
  rewrite set_dof_index_slot, Hslot. cbn.
  by rewrite vector_assign_lt.
Qed.

(** ** Properties of the accessors *)

(** C1 (round trip). When [fe_index_is_active (i, v)] answers [true]
    (object [i] is allocated and carries the valid variant [v]), the
    local slot [l] is less than the number [k_v] of DoFs that [v] places
    on an object of dimension [dim], and the block of the object is
    reserved inside [dofs], then [set_dof_index (i, v, l, g)] succeeds
    and [get_dof_index (i, v, l)] on the store it leaves returns [g]. *)
Theorem set_get_round_trip dof_handler self i v l g fe offset
    lvl_query lvl_set lvl_get :
  fe_index_is_active dof_handler self i v lvl_query = Ok true →
  get_fe dof_handler !! N.to_nat v = Some fe →
  l < n_dofs_per_object fe dim →
  dof_offsets self !! N.to_nat i = Some offset →
  offset + n_dofs_per_object fe dim ≤ vector_size (dofs self) →
  vector_size (dofs self) ≤ size_type_modulus →
  ∃ self',
    set_dof_index dof_handler self i v l g lvl_set = Ok self' ∧
    get_dof_index dof_handler self' i v l lvl_get = Ok g.
Proof.
  intros Hactive Hfe Hl Hoff Hblock Hsize.
  destruct (set_dof_index_in_block dof_handler self i v l g fe offset
              lvl_query lvl_set) as (Hslot & Hlt & Hset); try done.
  eexists. split; [exact Hset |].
  rewrite get_dof_index_slot. cbn [active_fe_indices dof_offsets dofs].
  rewrite (slot_address_same_tables _ self) by done.
  rewrite Hslot. cbn.
  apply vector_at_lookup, list_lookup_insert_eq.
  unfold vector_size in Hlt. lia.
Qed.

(** C2 (cell translation). On a cell level ([dim = dimm]), for an object
    [i] whose offset is not the sentinel and whose block is reserved
    inside [dofs], a valid variant [v] and a local slot [l] less than the
    number of DoFs of [v]: when [v] equals [active[i]],
    [get_dof_index (i, v, l)] returns [dofs[offsets[i] + l]]; when [v]
    differs from [active[i]], it fails with WrongVariant. *)
Theorem cell_get_dof_index dof_handler self i v l fe offset active lvl :
  dim = dimm →
  v ≠ default_fe_index →
  get_fe dof_handler !! N.to_nat v = Some fe →
  l < n_dofs_per_object fe dim →
  dof_offsets self !! N.to_nat i = Some offset →
  offset ≠ invalid_dof_index →
  active_fe_indices self !! N.to_nat i = Some active →
  (v = active →
   offset + n_dofs_per_object fe dim ≤ vector_size (dofs self) →
   vector_size (dofs self) ≤ size_type_modulus →
   ∃ g, dofs self !! N.to_nat (offset + l) = Some g ∧
        get_dof_index dof_handler self i v l lvl = Ok g) ∧
  (v ≠ active →
   get_dof_index dof_handler self i v l lvl = Throw WrongVariant).
Proof.
  intros _ Hv Hfe Hl Hoff Halloc Hact.
  rewrite get_dof_index_slot.
  rewrite (slot_address_checked _ _ _ _ _ fe offset active) by done.
  split.
  - intros <- Hblock Hsize. rewrite N.eqb_refl. cbn.
    destruct (slot_in_block offset l _ _ Hl Hblock Hsize) as [-> Hlt].
    destruct (vector_size_lt _ _ Hlt) as [g Hg].
    exists g. split; [done |]. by apply vector_at_lookup.
  - intros Hne. by apply N.eqb_neq in Hne as ->.
Qed.

(** The bodies of [get_dof_index] and [set_dof_index] for any [dim]:
    for an allocated object [i] with [active[i]] stored, a valid variant
    [v] and a local slot [l] less than the number of DoFs of [v], they
    read or assign [dofs[offsets[i] + l]] when [v] equals [active[i]]
    and end with the wrong-cell-FE message otherwise. *)
Theorem accessors_address_by_offset dof_handler self i v l g fe offset
    active lvl :
  v ≠ default_fe_index →
  get_fe dof_handler !! N.to_nat v = Some fe →
  l < n_dofs_per_object fe dim →
  dof_offsets self !! N.to_nat i = Some offset →
  offset ≠ invalid_dof_index →
  active_fe_indices self !! N.to_nat i = Some active →
  (v = active →
   get_dof_index dof_handler self i v l lvl =
     vector_at (dofs self) ((offset + l) mod size_type_modulus) ∧
   set_dof_index dof_handler self i v l g lvl =
     (dofs' ← vector_assign (dofs self)
                ((offset + l) mod size_type_modulus) g ;
      mret {| active_fe_indices := active_fe_indices self;
              dof_offsets := dof_offsets self;
              dofs := dofs' |})) ∧
  (v ≠ active →
   get_dof_index dof_handler self i v l lvl = Throw WrongVariant ∧
   set_dof_index dof_handler self i v l g lvl = Throw WrongVariant).
Proof.
  intros Hv Hfe Hl Hoff Halloc Hact.
  rewrite get_dof_index_slot, set_dof_index_slot.
  rewrite (slot_address_checked _ _ _ _ _ fe offset active) by done.
  split.
  - intros <-. by rewrite N.eqb_refl.
  - intros Hne. by apply N.eqb_neq in Hne as ->.
Qed.

(** The body of [n_active_fe_indices] for any [dim <= dimm]: for an
    object [i] within range it returns 0 if and only if [offsets[i]]
    holds the sentinel, and 1 for every allocated object. *)
Theorem n_active_fe_indices_zero_or_one dof_handler self i offset :
  (dim ≤ dimm)%nat →
  dof_offsets self !! N.to_nat i = Some offset →
  (n_active_fe_indices dof_handler self i = Ok 0
     ↔ offset = invalid_dof_index) ∧
  (offset ≠ invalid_dof_index →
   n_active_fe_indices dof_handler self i = Ok 1).
Proof.
  intros Hdim Hoff. unfold n_active_fe_indices.
  apply Nat.leb_le in Hdim as ->.
  rewrite (vector_size_lookup _ _ _ Hoff), (vector_at_lookup _ _ _ Hoff).
  cbn. destruct (N.eqb_spec offset invalid_dof_index); cbn.
  - split; [done | by intros []].
  - split; [| done]. split; [done | by intros ?].
Qed.

(** The body of [fe_index_is_active]: for an object [i] within range
    and a variant [v] other than the unspecified one, when [i] is
    allocated, [v] is less than the size of the collection and
    [active[i]] is stored, it returns [true] if and only if [v] equals
    [active[i]]; when [i] is unallocated and [v] is less than the size
    of the collection it ends with the no-DoFs message; when [v] is not
    less than the size of the collection it ends with [ExcIndexRange] on
    the variant. *)
Theorem fe_index_is_active_compares_active dof_handler self i v offset lvl :
  dof_offsets self !! N.to_nat i = Some offset →
  v ≠ default_fe_index →
  (offset ≠ invalid_dof_index →
   v < vector_size (get_fe dof_handler) →
   ∀ active, active_fe_indices self !! N.to_nat i = Some active →
     ∃ answer, fe_index_is_active dof_handler self i v lvl = Ok answer ∧
               (answer = true ↔ v = active)) ∧
  (offset = invalid_dof_index →
   v < vector_size (get_fe dof_handler) →
   fe_index_is_active dof_handler self i v lvl = Throw NoDoFsHere) ∧
  (vector_size (get_fe dof_handler) ≤ v →
   fe_index_is_active dof_handler self i v lvl =
     Throw (VariantOutOfRange v (vector_size (get_fe dof_handler)))).
Proof.
  intros Hoff Hv. unfold fe_index_is_active.
  rewrite (vector_size_lookup _ _ _ Hoff), (vector_at_lookup _ _ _ Hoff).
  apply N.eqb_neq in Hv as ->. cbn.
  split; [| split].
  - intros Halloc Hsize active Hact.
    apply N.ltb_lt in Hsize as ->. apply N.eqb_neq in Halloc as ->.
    rewrite (vector_size_lookup _ _ _ Hact), (vector_at_lookup _ _ _ Hact).
    cbn. eexists. split; [done |]. apply N.eqb_eq.
  - intros -> Hsize. apply N.ltb_lt in Hsize as ->.
    by rewrite N.eqb_refl.
  - intros Hsize. by apply N.ltb_ge in Hsize as ->.
Qed.

(** C7. For every object id, local slot and global id, and every state
    of the store, [get_dof_index] and [set_dof_index] called with the
    unspecified variant fail with UnspecifiedVariant. *)
Theorem unspecified_variant_is_rejected dof_handler self i l g lvl :
  get_dof_index dof_handler self i default_fe_index l lvl
    = Throw UnspecifiedVariant ∧
  set_dof_index dof_handler self i default_fe_index l g lvl
    = Throw UnspecifiedVariant.
Proof.
  unfold get_dof_index, set_dof_index. by rewrite N.eqb_refl.
Qed.

(** C8. For an allocated object [i] carrying the variant [v]
    ([fe_index_is_active (i, v)] answers [true]) whose block of [k_v]
    DoFs is reserved inside [dofs]: [set_dof_index (i, v, k_v, g)] fails
    with LocalSlotOutOfRange; when [k_v] is at least 1,
    [set_dof_index (i, v, k_v - 1, g)] succeeds; and for no [l] less
    than [k_v] does [set_dof_index (i, v, l, g)] fail with
    LocalSlotOutOfRange. *)
Theorem local_slot_bound dof_handler self i v g fe offset lvl_query lvl :
  fe_index_is_active dof_handler self i v lvl_query = Ok true →
  get_fe dof_handler !! N.to_nat v = Some fe →
  dof_offsets self !! N.to_nat i = Some offset →
  offset + n_dofs_per_object fe dim ≤ vector_size (dofs self) →
  vector_size (dofs self) ≤ size_type_modulus →
  set_dof_index dof_handler self i v (n_dofs_per_object fe dim) g lvl =
    Throw (LocalSlotOutOfRange (n_dofs_per_object fe dim)
             (n_dofs_per_object fe dim)) ∧
  (1 ≤ n_dofs_per_object fe dim →
   ∃ self',
     set_dof_index dof_handler self i v (n_dofs_per_object fe dim - 1) g lvl
       = Ok self') ∧
  (∀ l, l < n_dofs_per_object fe dim →
     set_dof_index dof_handler self i v l g lvl ≠
       Throw (LocalSlotOutOfRange l (n_dofs_per_object fe dim))).
Proof.
  intros Hactive Hfe Hoff Hblock Hsize.
  assert (∀ l, l < n_dofs_per_object fe dim →
            ∃ self', set_dof_index dof_handler self i v l g lvl = Ok self')
    as Hsucceeds.
  { intros l Hl.
    destruct (set_dof_index_in_block dof_handler self i v l g fe offset
                lvl_query lvl) as (_ & _ & Hset); eauto. }
  split; [| split].
  - apply fe_index_is_active_true in Hactive as (Hv & _ & _ & _).
    unfold set_dof_index. apply N.eqb_neq in Hv as ->.
    rewrite (vector_size_lookup _ _ _ Hfe), (vector_at_lookup _ _ _ Hfe).
    cbn. by rewrite N.ltb_irrefl.
  - intros Hk. apply Hsucceeds. lia.
  - intros l Hl. destruct (Hsucceeds l Hl) as [self' ->]. done.
Qed.

(** C9 (frame). A successful [set_dof_index (i, v, l, g)] leaves
    [dof_offsets] and [active_fe_indices] as they were and changes
    [dofs] in the one addressed slot only; and on a level whose blocks
    are reserved and do not overlap, for every triple [(i', v', l')]
    other than [(i, v, l)], [get_dof_index (i', v', l')] gives the same
    result before and after the write. *)
Theorem set_dof_index_frame dof_handler self self' i v l g lvl :
  set_dof_index dof_handler self i v l g lvl = Ok self' →
  dof_offsets self' = dof_offsets self ∧
  active_fe_indices self' = active_fe_indices self ∧
  (∃ slot,
     slot_address dof_handler self i v l = Ok slot ∧
     slot < vector_size (dofs self) ∧
     dofs self' = <[N.to_nat slot := g]> (dofs self)) ∧
  (blocks_reserved dof_handler self →
   blocks_disjoint dof_handler self →
   ∀ i' v' l' lvl',
     (i', v', l') ≠ (i, v, l) →
     get_dof_index dof_handler self' i' v' l' lvl' =
     get_dof_index dof_handler self i' v' l' lvl').
Proof.
  intros Hset.
  apply set_dof_index_Ok in Hset as (slot & dofs' & Hslot & Hassign & ->).
  cbn [active_fe_indices dof_offsets dofs].
  split; [done |]. split; [done |]. split.
  - exists slot. split; [done |].
    unfold vector_assign in Hassign.
    destruct (N.ltb_spec slot (vector_size (dofs self))); [| done].
    by injection Hassign as <-.
  - intros Hres Hdisj i' v' l' lvl' Hne.
    rewrite !get_dof_index_slot. cbn [active_fe_indices dof_offsets dofs].
    rewrite (slot_address_same_tables _ self) by done.
    destruct (slot_address dof_handler self i' v' l') as [slot'| |]
      eqn:Hslot'; [| done | done].
    cbn. apply (vector_assign_other _ _ _ _ _ Hassign).
    apply (slot_address_in_block _ _ _ _ _ _ Hres) in Hslot
      as (first & past & Hblock & -> & Hfirst & Hpast & Hact).
    apply (slot_address_in_block _ _ _ _ _ _ Hres) in Hslot'
      as (first' & past' & Hblock' & -> & Hfirst' & Hpast' & Hact').
    destruct (N.eq_dec i' i) as [->|Hi].
    + assert (v' = v) as -> by congruence.
      assert (first' = first) as ->.
      { destruct Hblock as (? & ? & ? & _), Hblock' as (? & ? & ? & _).
        congruence. }
      assert (l' ≠ l) by congruence. lia.
    + assert (N.to_nat i ≠ N.to_nat i') as Hnat by lia.
      destruct (Hdisj _ _ _ _ _ _ Hnat Hblock Hblock'); lia.
Qed.

(** C10. The argument [obj_level] of [set_dof_index], [get_dof_index],
    [nth_active_fe_index] and [fe_index_is_active] has no effect: for
    every state of the store and every two values of [obj_level], with
    all other arguments equal, each operation gives the same result
    (for [set_dof_index]: the same store or the same failure). *)
Theorem obj_level_is_ignored dof_handler self i v l g n lvl lvl' :
  set_dof_index dof_handler self i v l g lvl =
    set_dof_index dof_handler self i v l g lvl' ∧
  get_dof_index dof_handler self i v l lvl =
    get_dof_index dof_handler self i v l lvl' ∧
  nth_active_fe_index dof_handler self lvl i n =
    nth_active_fe_index dof_handler self lvl' i n ∧
  fe_index_is_active dof_handler self i v lvl =
    fe_index_is_active dof_handler self i v lvl'.
Proof. repeat split. Qed.

(** ** Further properties of the accessors *)

(** *** Results of the two accessors through [slot_address] *)

Lemma get_dof_index_Throw dof_handler self i v l lvl e :
  get_dof_index dof_handler self i v l lvl = Throw e ↔
  slot_address dof_handler self i v l = Throw e.
Proof.
  rewrite get_dof_index_slot.
  destruct (slot_address _ _ _ _ _) as [slot| |]; cbn; [| done | done].
  unfold vector_at. by destruct (dofs self !! N.to_nat slot).
Qed.

Lemma set_dof_index_Throw dof_handler self i v l g lvl e :
  set_dof_index dof_handler self i v l g lvl = Throw e ↔
  slot_address dof_handler self i v l = Throw e.
Proof.
  rewrite set_dof_index_slot.
  destruct (slot_address _ _ _ _ _) as [slot| |]; cbn;
    [| by split; intros [= ->] | by split].
  unfold vector_assign.
  destruct (slot <? vector_size (dofs self)); cbn; by split.
Qed.

Lemma get_dof_index_Ok dof_handler self i v l lvl x :
  get_dof_index dof_handler self i v l lvl = Ok x ↔
  ∃ slot, slot_address dof_handler self i v l = Ok slot ∧
          dofs self !! N.to_nat slot = Some x.
Proof.
  rewrite get_dof_index_slot.
  destruct (slot_address _ _ _ _ _) as [slot| |]; cbn.
  - split.
    + intros H. exists slot. split; [done |]. by apply vector_at_Ok.
    + intros (slot' & [= <-] & H). by apply vector_at_lookup.
  - split; [done | by intros (? & ? & _)].
  - split; [done | by intros (? & ? & _)].
Qed.

Lemma set_dof_index_at_slot dof_handler self i v l g lvl slot :
  slot_address dof_handler self i v l = Ok slot →
  slot < vector_size (dofs self) →
  set_dof_index dof_handler self i v l g lvl =
    Ok {| active_fe_indices := active_fe_indices self;
          dof_offsets := dof_offsets self;
          dofs := <[N.to_nat slot := g]> (dofs self) |}.
Proof.
  intros Hslot Hlt. rewrite set_dof_index_slot, Hslot. cbn.
  by rewrite vector_assign_lt.
Qed.

Lemma set_dof_index_Ok_slot dof_handler self self' i v l g lvl :
  set_dof_index dof_handler self i v l g lvl = Ok self' →
  ∃ slot,
    slot_address dof_handler self i v l = Ok slot ∧
    slot < vector_size (dofs self) ∧
    self' = {| active_fe_indices := active_fe_indices self;
               dof_offsets := dof_offsets self;
               dofs := <[N.to_nat slot := g]> (dofs self) |}.
Proof.
  intros Hset.
  apply set_dof_index_Ok in Hset as (slot & dofs' & Hslot & Hassign & ->).
  exists slot. split; [done |].
  unfold vector_assign in Hassign.
  destruct (N.ltb_spec slot (vector_size (dofs self))); [| done].
  by injection Hassign as <-.
Qed.

(** *** What the checks have established *)

Lemma slot_address_Throw dof_handler self i v l e :
  slot_address dof_handler self i v l = Throw e →
  (v = default_fe_index ∧ e = UnspecifiedVariant) ∨
  (vector_size (get_fe dof_handler) ≤ v ∧
   e = VariantOutOfRange v (vector_size (get_fe dof_handler))) ∨
  (∃ fe, get_fe dof_handler !! N.to_nat v = Some fe ∧
         n_dofs_per_object fe dim ≤ l ∧
         e = LocalSlotOutOfRange l (n_dofs_per_object fe dim)) ∨
  (vector_size (dof_offsets self) ≤ i ∧
   e = ObjectIndexOutOfRange i (vector_size (dof_offsets self))) ∨
  (dof_offsets self !! N.to_nat i = Some invalid_dof_index ∧
   e = NoDoFsHere) ∨
  (∃ active, active_fe_indices self !! N.to_nat i = Some active ∧
             active ≠ v ∧ e = WrongVariant).
Proof.
  unfold slot_address, Assert, mbind, result_bind, mret, result_ret.
  destruct (N.eqb_spec v default_fe_index) as [|Hv]; cbn.
  { intros [= <-]. by left. }
  destruct (N.ltb_spec v (vector_size (get_fe dof_handler))) as [Hsize|].
  2: { intros [= <-]. right. by left. }
  destruct (vector_size_lt _ _ Hsize) as [fe Hfe].
  rewrite (vector_at_lookup _ _ _ Hfe).
  destruct (N.ltb_spec l (n_dofs_per_object fe dim)) as [Hl|].
  2: { intros [= <-]. do 2 right. left. by exists fe. }
  destruct (N.ltb_spec i (vector_size (dof_offsets self))) as [Hi|].
  2: { intros [= <-]. do 3 right. by left. }
  destruct (vector_size_lt _ _ Hi) as [offset Hoff].
  rewrite (vector_at_lookup _ _ _ Hoff).
  destruct (N.eqb_spec offset invalid_dof_index) as [->|Halloc]; cbn.
  { intros [= <-]. do 4 right. by left. }
  unfold vector_at.
  destruct (active_fe_indices self !! N.to_nat i) as [active|] eqn:Hact;
    [| done].
  destruct (N.eqb_spec v active) as [|Hne]; [done |].
  intros [= <-]. do 5 right. exists active. done.
Qed.

Lemma fe_index_is_active_Ok dof_handler self i v lvl answer :
  fe_index_is_active dof_handler self i v lvl = Ok answer →
  v ≠ default_fe_index ∧
  v < vector_size (get_fe dof_handler) ∧
  ∃ offset active,
    dof_offsets self !! N.to_nat i = Some offset ∧
    offset ≠ invalid_dof_index ∧
    active_fe_indices self !! N.to_nat i = Some active ∧
    answer = (v =? active).
Proof.
  unfold fe_index_is_active, Assert, address_not_null, mbind, result_bind,
    mret, result_ret.
  destruct (i <? _); [| done].
  destruct (N.eqb_spec v default_fe_index) as [|Hv]; [done |]. cbn.
  destruct (N.ltb_spec v (vector_size (get_fe dof_handler)))
    as [Hsize|]; [| done].
  destruct (vector_at (dof_offsets self) i) as [offset| |] eqn:Hoff;
    [| done | done].
  destruct (N.eqb_spec offset invalid_dof_index) as [|Halloc]; [done |]. cbn.
  destruct (i <? _); [| done].
  destruct (vector_at (active_fe_indices self) i)
    as [active| |] eqn:Hact; [| done | done].
  intros [= <-]. apply vector_at_Ok in Hoff, Hact. eauto 10.
Qed.

Lemma fe_index_is_active_checked dof_handler self i v lvl offset active :
  v ≠ default_fe_index →
  v < vector_size (get_fe dof_handler) →
  dof_offsets self !! N.to_nat i = Some offset →
  offset ≠ invalid_dof_index →
  active_fe_indices self !! N.to_nat i = Some active →
  fe_index_is_active dof_handler self i v lvl = Ok (v =? active).
Proof.
  intros Hv Hsize Hoff Halloc Hact. unfold fe_index_is_active.
  rewrite (vector_size_lookup _ _ _ Hoff), (vector_at_lookup _ _ _ Hoff).
  apply N.eqb_neq in Hv as ->. apply N.ltb_lt in Hsize as ->. cbn.
  apply N.eqb_neq in Halloc as ->.
  by rewrite (vector_size_lookup _ _ _ Hact), (vector_at_lookup _ _ _ Hact).
Qed.

Lemma nth_active_fe_index_Ok dof_handler self lvl i n v :
  nth_active_fe_index dof_handler self lvl i n = Ok v →
  (dim ≤ dimm)%nat ∧ n = 0 ∧
  ∃ offset,
    dof_offsets self !! N.to_nat i = Some offset ∧
    offset ≠ invalid_dof_index ∧
    active_fe_indices self !! N.to_nat i = Some v.
Proof.
  unfold nth_active_fe_index, Assert, address_not_null, mbind, result_bind,
    mret, result_ret.
  destruct (Nat.leb_spec dim dimm) as [Hdim|]; [| done].
  destruct (i <? _); [| done].
  destruct (vector_at (dof_offsets self) i) as [offset| |] eqn:Hoff;
    [| done | done].
  destruct (N.eqb_spec offset invalid_dof_index) as [|Halloc]; [done |]. cbn.
  destruct (N.eqb_spec n 0) as [->|]; [| done].
  intros Hact. apply vector_at_Ok in Hoff, Hact. eauto 10.
Qed.

Lemma nth_active_fe_index_checked dof_handler self lvl i offset :
  (dim ≤ dimm)%nat →
  dof_offsets self !! N.to_nat i = Some offset →
  offset ≠ invalid_dof_index →
  nth_active_fe_index dof_handler self lvl i 0 =
    vector_at (active_fe_indices self) i.
Proof.
  intros Hdim Hoff Halloc. unfold nth_active_fe_index.
  apply Nat.leb_le in Hdim as ->.
  rewrite (vector_size_lookup _ _ _ Hoff), (vector_at_lookup _ _ _ Hoff).
  cbn. by apply N.eqb_neq in Halloc as ->.
Qed.

(** Two valid requests on a level whose blocks are reserved and do not
    overlap address different slots unless they are the same request. *)
Lemma slot_address_injective dof_handler self i v l i' v' l' slot slot' :
  blocks_reserved dof_handler self →
  blocks_disjoint dof_handler self →
  slot_address dof_handler self i v l = Ok slot →
  slot_address dof_handler self i' v' l' = Ok slot' →
  (i, v, l) ≠ (i', v', l') →
  slot ≠ slot'.
Proof.
  intros Hres Hdisj Hslot Hslot' Hne.
  apply (slot_address_in_block _ _ _ _ _ _ Hres) in Hslot
    as (first & past & Hblock & -> & Hfirst & Hpast & Hact).
  apply (slot_address_in_block _ _ _ _ _ _ Hres) in Hslot'
    as (first' & past' & Hblock' & -> & Hfirst' & Hpast' & Hact').
  destruct (N.eq_dec i i') as [<-|Hi].
  - assert (v' = v) as -> by congruence.
    assert (first' = first) as ->.
    { destruct Hblock as (? & ? & ? & _), Hblock' as (? & ? & ? & _).
      congruence. }
    assert (l ≠ l') by congruence. lia.
  - assert (N.to_nat i ≠ N.to_nat i') as Hnat by lia.
    destruct (Hdisj _ _ _ _ _ _ Hnat Hblock Hblock'); lia.
Qed.

(** *** Composition of writes and reads *)

(** X1 (last writer wins). When [set_dof_index (i, v, l, g1)] succeeds,
    a second write [set_dof_index (i, v, l, g2)] on the store it leaves
    succeeds as well, the read that follows returns [g2], and the store
    is the one that the single write of [g2] leaves. *)
Theorem set_dof_index_last_writer_wins dof_handler self self1 i v l g1 g2
    lvl1 lvl2 lvl3 :
  set_dof_index dof_handler self i v l g1 lvl1 = Ok self1 →
  ∃ self2,
    set_dof_index dof_handler self1 i v l g2 lvl2 = Ok self2 ∧
    get_dof_index dof_handler self2 i v l lvl3 = Ok g2 ∧
    set_dof_index dof_handler self i v l g2 lvl2 = Ok self2.
Proof.
  intros Hset.
  apply set_dof_index_Ok_slot in Hset as (slot & Hslot & Hlt & ->).
  eexists. split; [| split].
  - apply set_dof_index_at_slot.
    + by rewrite (slot_address_same_tables _ self).
    + cbn. unfold vector_size in *. by rewrite length_insert.
  - cbn. apply get_dof_index_Ok. exists slot. split.
    + by rewrite (slot_address_same_tables _ self).
    + cbn. rewrite list_insert_insert_eq. apply list_lookup_insert_eq.
      unfold vector_size in Hlt. lia.
  - cbn. rewrite list_insert_insert_eq.
    by apply set_dof_index_at_slot.
Qed.

(** X2 (writing back what was read). When [get_dof_index (i, v, l)]
    returns [x], the write [set_dof_index (i, v, l, x)] succeeds and
    leaves the store exactly as it was. *)
Theorem set_dof_index_of_read_value dof_handler self i v l x lvl lvl' :
  get_dof_index dof_handler self i v l lvl = Ok x →
  set_dof_index dof_handler self i v l x lvl' = Ok self.
Proof.
  intros Hget. apply get_dof_index_Ok in Hget as (slot & Hslot & Hx).
  rewrite (set_dof_index_at_slot _ _ _ _ _ _ _ slot); [| done |].
  - rewrite list_insert_id by done. by destruct self.
  - apply lookup_lt_Some in Hx. unfold vector_size. lia.
Qed.

(** X3 (reads and writes fail alike). For all arguments and every store,
    [get_dof_index (i, v, l)] and [set_dof_index (i, v, l, g)] end with
    the same exception if either ends with one, and one returns a value
    exactly when the other returns a store. *)
Theorem get_and_set_fail_alike dof_handler self i v l g lvl lvl' :
  (∀ e, get_dof_index dof_handler self i v l lvl = Throw e ↔
        set_dof_index dof_handler self i v l g lvl' = Throw e) ∧
  ((∃ x, get_dof_index dof_handler self i v l lvl = Ok x) ↔
   (∃ self', set_dof_index dof_handler self i v l g lvl' = Ok self')).
Proof.
  split.
  - intros e. by rewrite get_dof_index_Throw, set_dof_index_Throw.
  - split.
    + intros [x Hget]. apply get_dof_index_Ok in Hget as (slot & Hslot & Hx).
      eexists. apply (set_dof_index_at_slot _ _ _ _ _ _ _ slot); [done |].
      apply lookup_lt_Some in Hx. unfold vector_size. lia.
    + intros [self' Hset].
      apply set_dof_index_Ok_slot in Hset as (slot & Hslot & Hlt & _).
      destruct (vector_size_lt _ _ Hlt) as [x Hx].
      exists x. apply get_dof_index_Ok. eauto.
Qed.

(** X4 (writes to different slots commute). On a level whose blocks are
    reserved and do not overlap, two successful writes for different
    triples [(i, v, l)] and [(i', v', l')] can be made in either order:
    each succeeds on the store the other leaves, and both orders leave
    the same store. *)
Theorem set_dof_index_commute dof_handler self self1 self2
    i v l g i' v' l' g' lvl lvl' :
  blocks_reserved dof_handler self →
  blocks_disjoint dof_handler self →
  (i, v, l) ≠ (i', v', l') →
  set_dof_index dof_handler self i v l g lvl = Ok self1 →
  set_dof_index dof_handler self i' v' l' g' lvl' = Ok self2 →
  ∃ self12,
    set_dof_index dof_handler self1 i' v' l' g' lvl' = Ok self12 ∧
    set_dof_index dof_handler self2 i v l g lvl = Ok self12.
Proof.
  intros Hres Hdisj Hne Hset1 Hset2.
  apply set_dof_index_Ok_slot in Hset1 as (slot & Hslot & Hlt & ->).
  apply set_dof_index_Ok_slot in Hset2 as (slot' & Hslot' & Hlt' & ->).
  assert (slot ≠ slot') as Hslots
    by exact (slot_address_injective _ _ _ _ _ _ _ _ _ _
                Hres Hdisj Hslot Hslot' Hne).
  eexists. split.
  - rewrite (set_dof_index_at_slot _ _ _ _ _ _ _ slot').
    + reflexivity.
    + by rewrite (slot_address_same_tables _ self).
    + cbn. unfold vector_size in *. by rewrite length_insert.
  - rewrite (set_dof_index_at_slot _ _ _ _ _ _ _ slot).
    + cbn. f_equal. f_equal. apply list_insert_insert_ne. lia.
    + by rewrite (slot_address_same_tables _ self).
    + cbn. unfold vector_size in *. by rewrite length_insert.
Qed.

(** X5 (a write keeps the layout invariants). A successful
    [set_dof_index] neither establishes nor breaks the layout of the
    level: the blocks of the store it leaves are reserved, respectively
    do not overlap, exactly when those of the store it started from
    are. *)
Theorem set_dof_index_keeps_layout dof_handler self self' i v l g lvl :
  set_dof_index dof_handler self i v l g lvl = Ok self' →
  (blocks_reserved dof_handler self' ↔ blocks_reserved dof_handler self) ∧
  (blocks_disjoint dof_handler self' ↔ blocks_disjoint dof_handler self).
Proof.
  intros Hset.
  apply set_dof_index_Ok_slot in Hset as (slot & _ & _ & ->).
  unfold blocks_reserved, blocks_disjoint, block, vector_size. cbn.
  by rewrite length_insert.
Qed.

(** X6 (a write does not change the queries). After a successful
    [set_dof_index], the three queries [n_active_fe_indices],
    [nth_active_fe_index] and [fe_index_is_active] answer on the new
    store, for every object, as they did before the write. *)
Theorem set_dof_index_keeps_queries dof_handler self self' i v l g lvl :
  set_dof_index dof_handler self i v l g lvl = Ok self' →
  ∀ j w n lvl',
    n_active_fe_indices dof_handler self' j =
      n_active_fe_indices dof_handler self j ∧
    nth_active_fe_index dof_handler self' lvl' j n =
      nth_active_fe_index dof_handler self lvl' j n ∧
    fe_index_is_active dof_handler self' j w lvl' =
      fe_index_is_active dof_handler self j w lvl'.
Proof.
  intros Hset j w n lvl'.
  apply set_dof_index_Ok_slot in Hset as (slot & _ & _ & ->).
  repeat split.
Qed.

(** *** Failures *)

(** X7 (the failures of a read or a write). When [get_dof_index] or
    [set_dof_index] ends with an exception, it is one of six, each with
    its cause: the variant is the unspecified one; the variant is not
    less than the size of the collection; the local slot is not less
    than the number of DoFs of the variant; the object index is not less
    than the size of [dof_offsets]; the offset of the object is the
    sentinel; or the variant differs from [active_fe_indices[i]]. *)
Theorem accessor_failures dof_handler self i v l g lvl e :
  get_dof_index dof_handler self i v l lvl = Throw e ∨
  set_dof_index dof_handler self i v l g lvl = Throw e →
  (v = default_fe_index ∧ e = UnspecifiedVariant) ∨
  (vector_size (get_fe dof_handler) ≤ v ∧
   e = VariantOutOfRange v (vector_size (get_fe dof_handler))) ∨
  (∃ fe, get_fe dof_handler !! N.to_nat v = Some fe ∧
         n_dofs_per_object fe dim ≤ l ∧
         e = LocalSlotOutOfRange l (n_dofs_per_object fe dim)) ∨
  (vector_size (dof_offsets self) ≤ i ∧
   e = ObjectIndexOutOfRange i (vector_size (dof_offsets self))) ∨
  (dof_offsets self !! N.to_nat i = Some invalid_dof_index ∧
   e = NoDoFsHere) ∨
  (∃ active, active_fe_indices self !! N.to_nat i = Some active ∧
             active ≠ v ∧ e = WrongVariant).
Proof.
  intros [H|H]; apply slot_address_Throw.
  - by apply get_dof_index_Throw in H.
  - by apply set_dof_index_Throw in H.
Qed.

(** X8 (an index-range exception reports an index out of its range).
    Whenever one of the five accessors ends with [ExcIndexRange
    (index, lower, upper)], [lower] is 0 and [index] is not less than
    [upper]. *)
Theorem index_range_exception_is_out_of_range dof_handler self i v l g n
    lvl index lower upper :
  get_dof_index dof_handler self i v l lvl
    = Throw (ExcIndexRange index lower upper) ∨
  set_dof_index dof_handler self i v l g lvl
    = Throw (ExcIndexRange index lower upper) ∨
  n_active_fe_indices dof_handler self i
    = Throw (ExcIndexRange index lower upper) ∨
  nth_active_fe_index dof_handler self lvl i n
    = Throw (ExcIndexRange index lower upper) ∨
  fe_index_is_active dof_handler self i v lvl
    = Throw (ExcIndexRange index lower upper) →
  lower = 0 ∧ upper ≤ index.
Proof.
  assert (∀ size, size ≤ i → static_cast_unsigned_int size ≤ i) as Hcast.
  { intros size Hsize. unfold static_cast_unsigned_int.
    destruct (N.eq_dec unsigned_int_modulus 0) as [->|Hmod].
    - by rewrite N.mod_0_r.
    - pose proof (N.Div0.mod_le size unsigned_int_modulus). lia. }
  assert (slot_address dof_handler self i v l
            = Throw (ExcIndexRange index lower upper) →
          lower = 0 ∧ upper ≤ index) as Hslot.
  { intros H. apply slot_address_Throw in H
      as [[_ H]|[[? H]|[(fe & _ & ? & H)|[[? H]|[[_ H]|(? & _ & _ & H)]]]]];
      try done; by injection H as -> -> ->. }
  intros [H|[H|[H|[H|H]]]].
  - apply Hslot. by apply get_dof_index_Throw in H.
  - apply Hslot. by apply set_dof_index_Throw in H.
  - revert H. unfold n_active_fe_indices, Assert, address_not_null,
      mbind, result_bind, mret, result_ret.
    destruct (dim <=? dimm)%nat; [| done].
    destruct (N.ltb_spec i (vector_size (dof_offsets self))) as [Hi|].
    + destruct (vector_size_lt _ _ Hi) as [offset Hoff].
      rewrite (vector_at_lookup _ _ _ Hoff).
      by destruct (offset =? invalid_dof_index).
    + by intros [= <- <- <-].
  - revert H. unfold nth_active_fe_index, Assert, address_not_null,
      mbind, result_bind, mret, result_ret.
    destruct (dim <=? dimm)%nat; [| done].
    destruct (N.ltb_spec i (vector_size (dof_offsets self))) as [Hi|].
    + destruct (vector_size_lt _ _ Hi) as [offset Hoff].
      rewrite (vector_at_lookup _ _ _ Hoff).
      destruct (offset =? invalid_dof_index); [done |]. cbn.
      destruct (N.eqb_spec n 0).
      * unfold vector_at.
        by destruct (active_fe_indices self !! N.to_nat i).
      * intros [= <- <- <-]. split; [done | lia].
    + by intros [= <- <- <-].
  - revert H. unfold fe_index_is_active, Assert, address_not_null,
      mbind, result_bind, mret, result_ret.
    destruct (N.ltb_spec i (vector_size (dof_offsets self))) as [Hi|].
    + destruct (v =? default_fe_index); [done |]. cbn.
      destruct (N.ltb_spec v (vector_size (get_fe dof_handler))).
      * destruct (vector_size_lt _ _ Hi) as [offset Hoff].
        rewrite (vector_at_lookup _ _ _ Hoff).
        destruct (offset =? invalid_dof_index); [done |]. cbn.
        destruct (i <? _); [| done].
        unfold vector_at.
        by destruct (active_fe_indices self !! N.to_nat i).
      * by intros [= <- <- <-].
    + intros [= <- <- <-]. split; [done |]. by apply Hcast.
Qed.

(** X9 (object index out of range). For an object index that is not
    less than the size of [dof_offsets]: [fe_index_is_active] fails with
    ObjectIndexOutOfRange for every variant, the unspecified one
    included, and reports the size converted to [unsigned int];
    [n_active_fe_indices] and [nth_active_fe_index] (with [dim <= dimm])
    fail with ObjectIndexOutOfRange; [get_dof_index] and
    [set_dof_index] do so once the variant and the local slot have
    passed their checks. *)
Theorem object_index_out_of_range dof_handler self i :
  vector_size (dof_offsets self) ≤ i →
  (∀ v lvl,
     fe_index_is_active dof_handler self i v lvl =
       Throw (ObjectIndexOutOfRange i
                (static_cast_unsigned_int (vector_size (dof_offsets self)))))
  ∧
  ((dim ≤ dimm)%nat →
   n_active_fe_indices dof_handler self i =
     Throw (ObjectIndexOutOfRange i (vector_size (dof_offsets self))) ∧
   ∀ lvl n,
     nth_active_fe_index dof_handler self lvl i n =
       Throw (ObjectIndexOutOfRange i (vector_size (dof_offsets self))))
  ∧
  (∀ v l g lvl fe,
     v ≠ default_fe_index →
     get_fe dof_handler !! N.to_nat v = Some fe →
     l < n_dofs_per_object fe dim →
     get_dof_index dof_handler self i v l lvl =
       Throw (ObjectIndexOutOfRange i (vector_size (dof_offsets self))) ∧
     set_dof_index dof_handler self i v l g lvl =
       Throw (ObjectIndexOutOfRange i (vector_size (dof_offsets self)))).
Proof.
  intros Hi. apply N.ltb_ge in Hi. split; [| split].
  - intros v lvl. unfold fe_index_is_active. by rewrite Hi.
  - intros Hdim. apply Nat.leb_le in Hdim.
    unfold n_active_fe_indices, nth_active_fe_index.
    by rewrite Hdim, Hi.
  - intros v l g lvl fe Hv Hfe Hl.
    unfold get_dof_index, set_dof_index.
    apply N.eqb_neq in Hv as ->.
    rewrite (vector_size_lookup _ _ _ Hfe), (vector_at_lookup _ _ _ Hfe).
    apply N.ltb_lt in Hl. cbn. by rewrite Hl, Hi.
Qed.

(** *** Agreement of the accessors *)

(** X10 (the queries agree). With [dim <= dimm], for a variant [v] other
    than the unspecified one and less than the size of the collection:
    [fe_index_is_active (i, v)] answers [true] exactly when
    [nth_active_fe_index (i, 0)] returns [v]; and then
    [n_active_fe_indices (i)] returns 1. *)
Theorem active_queries_agree dof_handler self i v lvl lvl' :
  (dim ≤ dimm)%nat →
  v ≠ default_fe_index →
  v < vector_size (get_fe dof_handler) →
  (fe_index_is_active dof_handler self i v lvl = Ok true ↔
   nth_active_fe_index dof_handler self lvl' i 0 = Ok v) ∧
  (fe_index_is_active dof_handler self i v lvl = Ok true →
   n_active_fe_indices dof_handler self i = Ok 1).
Proof.
  intros Hdim Hv Hsize. split; [split |].
  - intros H. apply fe_index_is_active_true in H
      as (_ & _ & (offset & Hoff & Halloc) & Hact).
    rewrite (nth_active_fe_index_checked _ _ _ _ offset) by done.
    by apply vector_at_lookup.
  - intros H. apply nth_active_fe_index_Ok in H
      as (_ & _ & offset & Hoff & Halloc & Hact).
    rewrite (fe_index_is_active_checked _ _ _ _ _ offset v) by done.
    by rewrite N.eqb_refl.
  - intros H. apply fe_index_is_active_true in H
      as (_ & _ & (offset & Hoff & Halloc) & _).
    unfold n_active_fe_indices. apply Nat.leb_le in Hdim as ->.
    rewrite (vector_size_lookup _ _ _ Hoff), (vector_at_lookup _ _ _ Hoff).
    cbn. by apply N.eqb_neq in Halloc as ->.
Qed.

(** X11 (a read that succeeds was for the active variant). When
    [get_dof_index (i, v, l)] returns a value, [fe_index_is_active
    (i, v)] answers [true]. *)
Theorem successful_read_means_active dof_handler self i v l lvl lvl' x :
  get_dof_index dof_handler self i v l lvl = Ok x →
  fe_index_is_active dof_handler self i v lvl' = Ok true.
Proof.
  intros Hget. apply get_dof_index_Ok in Hget as (slot & Hslot & _).
  apply slot_address_Ok in Hslot
    as (fe & offset & Hv & Hfe & _ & Hoff & Halloc & Hact & _).
  rewrite (fe_index_is_active_checked _ _ _ _ _ offset v); try done.
  - by rewrite N.eqb_refl.
  - apply N.ltb_lt. by apply (vector_size_lookup _ _ fe).
Qed.

(** X12 (the inactive variant). When [fe_index_is_active (i, v)]
    answers [false], [get_dof_index (i, v, l)] and [set_dof_index
    (i, v, l, g)] fail: with WrongVariant when [l] is less than the
    number of DoFs of [v], with LocalSlotOutOfRange otherwise; the
    store is neither read nor written. *)
Theorem inactive_variant_is_refused dof_handler self i v l g lvl lvl' fe :
  fe_index_is_active dof_handler self i v lvl' = Ok false →
  get_fe dof_handler !! N.to_nat v = Some fe →
  get_dof_index dof_handler self i v l lvl =
    Throw (if l <? n_dofs_per_object fe dim then WrongVariant
           else LocalSlotOutOfRange l (n_dofs_per_object fe dim)) ∧
  set_dof_index dof_handler self i v l g lvl =
    Throw (if l <? n_dofs_per_object fe dim then WrongVariant
           else LocalSlotOutOfRange l (n_dofs_per_object fe dim)).
Proof.
  intros Hquery Hfe.
  apply fe_index_is_active_Ok in Hquery
    as (Hv & _ & offset & active & Hoff & Halloc & Hact & Hne).
  assert (slot_address dof_handler self i v l =
            Throw (if l <? n_dofs_per_object fe dim then WrongVariant
                   else LocalSlotOutOfRange l (n_dofs_per_object fe dim)))
    as Hslot.
  { destruct (N.ltb_spec l (n_dofs_per_object fe dim)) as [Hl|Hl].
    - rewrite (slot_address_checked _ _ _ _ _ fe offset active) by done.
      by rewrite <- Hne.
    - unfold slot_address. apply N.eqb_neq in Hv as ->.
      rewrite (vector_size_lookup _ _ _ Hfe), (vector_at_lookup _ _ _ Hfe).
      apply N.ltb_ge in Hl. cbn. by rewrite Hl. }
  split.
  - by apply get_dof_index_Throw.
  - by apply set_dof_index_Throw.
Qed.

(** X13 (no entry in [active_fe_indices]). For an allocated object
    within [dof_offsets] for which [active_fe_indices] holds no element,
    a variant that passes its checks and a local slot within its range:
    [fe_index_is_active] fails with [ExcInternalError], while
    [get_dof_index], [set_dof_index] and (with [dim <= dimm])
    [nth_active_fe_index] carry no such assertion and read
    [active_fe_indices] outside its range. *)
Theorem missing_active_entry dof_handler self i v l g lvl fe offset :
  v ≠ default_fe_index →
  get_fe dof_handler !! N.to_nat v = Some fe →
  l < n_dofs_per_object fe dim →
  dof_offsets self !! N.to_nat i = Some offset →
  offset ≠ invalid_dof_index →
  active_fe_indices self !! N.to_nat i = None →
  fe_index_is_active dof_handler self i v lvl = Throw ExcInternalError ∧
  get_dof_index dof_handler self i v l lvl = Undefined ∧
  set_dof_index dof_handler self i v l g lvl = Undefined ∧
  ((dim ≤ dimm)%nat →
   nth_active_fe_index dof_handler self lvl i 0 = Undefined).
Proof.
  intros Hv Hfe Hl Hoff Halloc Hact.
  assert ((i <? vector_size (active_fe_indices self)) = false) as Hsize.
  { apply N.ltb_ge. apply lookup_ge_None_1 in Hact.
    unfold vector_size. lia. }
  assert (vector_at (active_fe_indices self) i = Undefined) as Hat
    by (unfold vector_at; by rewrite Hact).
  pose proof (vector_size_lookup _ _ _ Hfe) as Hfe_size.
  pose proof (vector_size_lookup _ _ _ Hoff) as Hoff_size.
  apply N.eqb_neq in Hv, Halloc. apply N.ltb_lt in Hl.
  repeat split.
  - unfold fe_index_is_active.
    rewrite Hoff_size, Hv, Hfe_size, (vector_at_lookup _ _ _ Hoff). cbn.
    by rewrite Halloc, Hsize.
  - unfold get_dof_index.
    rewrite Hv, Hfe_size, (vector_at_lookup _ _ _ Hfe). cbn.
    rewrite Hl, Hoff_size, (vector_at_lookup _ _ _ Hoff). cbn.
    by rewrite Halloc, Hat.
  - unfold set_dof_index.
    rewrite Hv, Hfe_size, (vector_at_lookup _ _ _ Hfe). cbn.
    rewrite Hl, Hoff_size, (vector_at_lookup _ _ _ Hoff). cbn.
    by rewrite Halloc, Hat.
  - intros Hdim. apply N.eqb_neq in Halloc.
    by rewrite (nth_active_fe_index_checked _ _ _ _ offset).
Qed.

(** X14 (an object without DoFs). When [n_active_fe_indices (i)]
    returns 0, [get_dof_index (i, v, l)] and
    [set_dof_index (i, v, l, g)] fail with NoDoFsHere for every variant
    and local slot that pass their checks, and [nth_active_fe_index
    (i, n)] fails with NoDoFsHere for every [n]. *)
Theorem object_without_dofs dof_handler self i :
  n_active_fe_indices dof_handler self i = Ok 0 →
  (∀ v l g lvl fe,
     v ≠ default_fe_index →
     get_fe dof_handler !! N.to_nat v = Some fe →
     l < n_dofs_per_object fe dim →
     get_dof_index dof_handler self i v l lvl = Throw NoDoFsHere ∧
     set_dof_index dof_handler self i v l g lvl = Throw NoDoFsHere) ∧
  (∀ lvl n,
     nth_active_fe_index dof_handler self lvl i n = Throw NoDoFsHere).
Proof.
  unfold n_active_fe_indices, Assert, address_not_null, mbind, result_bind,
    mret, result_ret.
  destruct (dim <=? dimm)%nat eqn:Hdim; [| done].
  destruct (N.ltb_spec i (vector_size (dof_offsets self))) as [Hi|];
    [| done].
  destruct (vector_size_lt _ _ Hi) as [offset Hoff].
  rewrite (vector_at_lookup _ _ _ Hoff).
  destruct (N.eqb_spec offset invalid_dof_index) as [->|]; [| done].
  intros _. apply N.ltb_lt in Hi. split.
  - intros v l g lvl fe Hv Hfe Hl.
    unfold get_dof_index, set_dof_index.
    apply N.eqb_neq in Hv as ->.
    rewrite (vector_size_lookup _ _ _ Hfe), (vector_at_lookup _ _ _ Hfe).
    apply N.ltb_lt in Hl. cbn.
    rewrite Hl, Hi, (vector_at_lookup _ _ _ Hoff). cbn.
    by rewrite N.eqb_refl.
  - intros lvl n. unfold nth_active_fe_index.
    rewrite Hdim, Hi, (vector_at_lookup _ _ _ Hoff). cbn.
    by rewrite N.eqb_refl.
Qed.

End Accessors.

(** ** The scenarios of the specification, evaluated *)

Example scenario_A_numbering :
  let set := set_dof_index invalid_unsigned_int invalid_unsigned_int
               size_type_values 2 scenario_handler in
  let get := get_dof_index invalid_unsigned_int invalid_unsigned_int
               size_type_values 2 scenario_handler in
  let numbered :=
    s ← set scenario_A 0 0 0 100 0 ;
    s ← set s 0 0 1 101 0 ;
    s ← set s 1 1 0 200 0 ;
    s ← set s 1 1 1 201 0 ;
    s ← set s 1 1 2 202 0 ;
    s ← set s 2 0 0 300 0 ;
    set s 2 0 1 301 0 in
  (s ← numbered ; mret (dofs s))
    = Ok [100; 101; 200; 201; 202; 300; 301] ∧
  (s ← numbered ; get s 1 1 2 0) = Ok 202 ∧
  get scenario_A 1 1 2 0 = Ok invalid_unsigned_int ∧
  get scenario_A 42 0 0 0 = Throw (ObjectIndexOutOfRange 42 3).
Proof. repeat split. Qed.

Example scenario_A_queries :
  n_active_fe_indices invalid_unsigned_int 2 2 scenario_handler scenario_A 1
    = Ok 1 ∧
  fe_index_is_active invalid_unsigned_int invalid_unsigned_int
    unsigned_int_values scenario_handler scenario_A 1 0 0 = Ok false.
Proof. repeat split. Qed.

(** The blocks of scenario A are reserved and do not overlap. *)
Lemma scenario_A_blocks_reserved :
  blocks_reserved invalid_unsigned_int size_type_values 2
    scenario_handler scenario_A.
Proof.
  split; [by vm_compute |].
  intros i first past (active & fe & Hoff & _ & Hact & Hfe & ->).
  destruct i as [|[|[|i]]]; cbn in Hoff, Hact; simplify_eq;
    vm_compute in Hfe; simplify_eq; by vm_compute.
Qed.

Lemma scenario_A_blocks_disjoint :
  blocks_disjoint invalid_unsigned_int 2 scenario_handler scenario_A.
Proof.
  intros i j first_i past_i first_j past_j Hne
    (active_i & fe_i & Hoff_i & _ & Hact_i & Hfe_i & ->)
    (active_j & fe_j & Hoff_j & _ & Hact_j & Hfe_j & ->).
  destruct i as [|[|[|i]]]; cbn in Hoff_i, Hact_i; simplify_eq;
    vm_compute in Hfe_i; simplify_eq;
    destruct j as [|[|[|j]]]; cbn in Hoff_j, Hact_j; simplify_eq;
    vm_compute in Hfe_j; simplify_eq; unfold fe_with; cbn; lia.
Qed.

(** ** The theorems at concrete stores *)

(** C1 on scenario A: the write of 202 to slot 2 of cell 1 and the read
    that follows. *)
Lemma set_get_round_trip_witness :
  ∃ self',
    set_dof_index invalid_unsigned_int invalid_unsigned_int size_type_values
      2 scenario_handler scenario_A 1 1 2 202 0 = Ok self' ∧
    get_dof_index invalid_unsigned_int invalid_unsigned_int size_type_values
      2 scenario_handler self' 1 1 2 0 = Ok 202.
Proof.
  apply (set_get_round_trip invalid_unsigned_int invalid_unsigned_int
           size_type_values unsigned_int_values 2 scenario_handler scenario_A 1 1 2 202
           (fe_with 3) 2 0 0 0); by vm_compute.
Defined.

(** C2 on scenario A: slot 2 of cell 1 is [dofs[2 + 2]]. *)
Lemma cell_get_dof_index_witness :
  ∃ g, dofs scenario_A !! N.to_nat (2 + 2) = Some g ∧
       get_dof_index invalid_unsigned_int invalid_unsigned_int
         size_type_values 2 scenario_handler scenario_A 1 1 2 0 = Ok g.
Proof.
  apply (cell_get_dof_index invalid_unsigned_int invalid_unsigned_int
           size_type_values 2 2 scenario_handler scenario_A 1 1 2
           (fe_with 3) 2 1 0); by vm_compute.
Defined.

(** With [active = [3]] on the object whose payload lists the variants
    3 and 7, the read and the write of variant 7 are refused. *)
Lemma accessors_address_by_offset_witness :
  get_dof_index invalid_unsigned_int invalid_unsigned_int size_type_values
    1 eight_variants (subcell_3_7 [3]) 0 7 1 0 = Throw WrongVariant ∧
  set_dof_index invalid_unsigned_int invalid_unsigned_int size_type_values
    1 eight_variants (subcell_3_7 [3]) 0 7 1 9 0 = Throw WrongVariant.
Proof.
  apply (accessors_address_by_offset invalid_unsigned_int
           invalid_unsigned_int size_type_values 1 eight_variants
           (subcell_3_7 [3]) 0 7 1 9 (fe_with 2) 0 3 0); by vm_compute.
Defined.

(** [n_active_fe_indices] on object 0 of scenario B (lines of a
    two-dimensional mesh). *)
Lemma n_active_fe_indices_zero_or_one_witness :
  n_active_fe_indices invalid_unsigned_int 1 2 scenario_handler scenario_B 0
    = Ok 1.
Proof.
  apply (n_active_fe_indices_zero_or_one invalid_unsigned_int 1 2
           scenario_handler scenario_B 0 0); first [lia | by vm_compute].
Defined.

(** [fe_index_is_active] for variant 0 on cell 1 of scenario A. *)
Lemma fe_index_is_active_compares_active_witness :
  ∃ answer,
    fe_index_is_active invalid_unsigned_int invalid_unsigned_int
      unsigned_int_values scenario_handler scenario_A 1 0 0 = Ok answer ∧
    (answer = true ↔ 0 = 1).
Proof.
  apply (fe_index_is_active_compares_active invalid_unsigned_int
           invalid_unsigned_int unsigned_int_values scenario_handler scenario_A 1 0 2 0);
    by vm_compute.
Defined.

(** C8 on scenario A: variant 1 places 3 DoFs on cell 1. *)
Lemma local_slot_bound_witness :
  set_dof_index invalid_unsigned_int invalid_unsigned_int size_type_values
    2 scenario_handler scenario_A 1 1 3 202 0
    = Throw (LocalSlotOutOfRange 3 3) ∧
  (1 ≤ 3 →
   ∃ self',
     set_dof_index invalid_unsigned_int invalid_unsigned_int
       size_type_values 2 scenario_handler scenario_A 1 1 (3 - 1) 202 0
       = Ok self') ∧
  (∀ l, l < 3 →
     set_dof_index invalid_unsigned_int invalid_unsigned_int
       size_type_values 2 scenario_handler scenario_A 1 1 l 202 0 ≠
       Throw (LocalSlotOutOfRange l 3)).
Proof.
  apply (local_slot_bound invalid_unsigned_int invalid_unsigned_int
           size_type_values unsigned_int_values 2 scenario_handler scenario_A 1 1 202
           (fe_with 3) 2 0 0); by vm_compute.
Defined.

(** C9 on scenario A: the write to slot 2 of cell 1 and the read of slot
    1 of cell 2. *)
Lemma set_dof_index_frame_witness :
  let self' :=
    {| active_fe_indices := active_fe_indices scenario_A;
       dof_offsets := dof_offsets scenario_A;
       dofs := <[4%nat := 202]> (dofs scenario_A) |} in
  set_dof_index invalid_unsigned_int invalid_unsigned_int size_type_values
    2 scenario_handler scenario_A 1 1 2 202 0 = Ok self' ∧
  get_dof_index invalid_unsigned_int invalid_unsigned_int size_type_values
    2 scenario_handler self' 2 0 1 0 =
  get_dof_index invalid_unsigned_int invalid_unsigned_int size_type_values
    2 scenario_handler scenario_A 2 0 1 0.
Proof.
  intros self'. split; [reflexivity |].
  apply (set_dof_index_frame invalid_unsigned_int invalid_unsigned_int
           size_type_values 2 scenario_handler scenario_A self' 1 1 2 202 0).
  - reflexivity.
  - apply scenario_A_blocks_reserved.
  - apply scenario_A_blocks_disjoint.
  - by vm_compute.
Defined.

(** ** Objects below the cell dimension: the list is not traversed

    The documentation of the class describes, for objects of lower
    dimension than cells, the list of (variant id, DoF indices) records
    ended by the sentinel, and names [DoFLevel::set_dof_index()] and
    [DoFLevel::get_dof_index()] as the functions that traverse it; the
    documentation of [n_active_fe_indices] says that a face may answer
    one or two. No body of the header traverses the list: each one
    consults [active_fe_indices[obj_index]] alone. The lemmas below
    evaluate the accessors on levels of lines of a two-dimensional mesh
    ([dim = 1], [dimm = 2]) whose payload is such a list, next to the
    reference definitions of [SubCellList]. *)

(** C3 (the code does not do what the claim and the class documentation
    say). On the object whose payload lists the variants 3 and 7, the
    scan reads the DoF 70 for variant 7 and answers VariantNotOnObject
    for variant 5. [get_dof_index] and [set_dof_index] consult
    [active_fe_indices[0]] instead: with [active] empty (a level below
    the cell dimension) the read and the write of variant 7 index
    [active_fe_indices] outside its range; with [active = [3]] the read
    fails with WrongVariant; with [active = [7]] the read returns the
    variant id 3 stored at the offset and the write overwrites it; and
    with [active = [5]] the read of variant 5 succeeds. *)
Lemma get_dof_index_does_not_scan :
  SubCellList.read invalid_unsigned_int 1 (get_fe eight_variants)
    payload_3_7 [0] 0 7 0 = SubCellList.Value 70 ∧
  SubCellList.read invalid_unsigned_int 1 (get_fe eight_variants)
    payload_3_7 [0] 0 5 0 = SubCellList.VariantNotOnObject ∧
  get_dof_index invalid_unsigned_int invalid_unsigned_int size_type_values
    1 eight_variants (subcell_3_7 []) 0 7 0 0 = Undefined ∧
  set_dof_index invalid_unsigned_int invalid_unsigned_int size_type_values
    1 eight_variants (subcell_3_7 []) 0 7 0 9 0 = Undefined ∧
  get_dof_index invalid_unsigned_int invalid_unsigned_int size_type_values
    1 eight_variants (subcell_3_7 []) 0 5 0 0 = Undefined ∧
  get_dof_index invalid_unsigned_int invalid_unsigned_int size_type_values
    1 eight_variants (subcell_3_7 [3]) 0 7 0 0 = Throw WrongVariant ∧
  get_dof_index invalid_unsigned_int invalid_unsigned_int size_type_values
    1 eight_variants (subcell_3_7 [7]) 0 7 0 0 = Ok 3 ∧
  set_dof_index invalid_unsigned_int invalid_unsigned_int size_type_values
    1 eight_variants (subcell_3_7 [7]) 0 7 0 9 0 =
    Ok {| active_fe_indices := [7];
          dof_offsets := [0];
          dofs := [9; 30; 31; 7; 70; 71; invalid_unsigned_int] |} ∧
  get_dof_index invalid_unsigned_int invalid_unsigned_int size_type_values
    1 eight_variants (subcell_3_7 [5]) 0 5 0 0 = Ok 3.
Proof. repeat split. Qed.

(** Whatever [active_fe_indices] holds, the read of variant 7 on that
    object is never the DoF 70 that the scan finds. *)
Lemma get_dof_index_never_the_scanned_dof (active : list N) :
  get_dof_index invalid_unsigned_int invalid_unsigned_int size_type_values
    1 eight_variants (subcell_3_7 active) 0 7 0 0 ≠ Ok 70.
Proof.
  destruct active as [|a rest]; [by vm_compute |].
  rewrite get_dof_index_slot.
  rewrite (slot_address_checked _ _ _ _ _ _ _ _ _ (fe_with 2) 0 a)
    by (by vm_compute).
  destruct (7 =? a); by vm_compute.
Qed.

(** C4 (the code does not do what the claim and the documentation of
    the function say). Object 0 of scenario B carries the variants 0 and
    2, so its list has two entries; [n_active_fe_indices] returns 1 for
    it. *)
Lemma n_active_fe_indices_ignores_list :
  SubCellList.variants invalid_unsigned_int 1 (get_fe scenario_handler)
    (dofs scenario_B) (dof_offsets scenario_B) 0 = Some [0; 2] ∧
  n_active_fe_indices invalid_unsigned_int 1 2 scenario_handler scenario_B 0
    = Ok 1 ∧
  n_active_fe_indices invalid_unsigned_int 1 2 scenario_handler scenario_B 0
    ≠ Ok (N.of_nat (length [0; 2])).
Proof. split; [reflexivity | split; [reflexivity | by vm_compute]]. Qed.

(** C5 (the code does not do what the claim and the documentation
    say). Variant 7 occurs in the list of the object carrying the
    variants 3 and 7, and [fe_index_is_active] does not answer [true]
    for it: with [active] empty (a level below the cell dimension) it
    fails with [ExcInternalError], with [active = [3]] it answers
    [false]; with [active = [7]] it answers [false] for variant 3, which
    occurs in the list as well. *)
Lemma fe_index_is_active_ignores_list :
  SubCellList.variants invalid_unsigned_int 1 (get_fe eight_variants)
    payload_3_7 [0] 0 = Some [3; 7] ∧
  fe_index_is_active invalid_unsigned_int invalid_unsigned_int
    unsigned_int_values eight_variants (subcell_3_7 []) 0 7 0
    = Throw ExcInternalError ∧
  fe_index_is_active invalid_unsigned_int invalid_unsigned_int
    unsigned_int_values eight_variants (subcell_3_7 [3]) 0 7 0
    = Ok false ∧
  fe_index_is_active invalid_unsigned_int invalid_unsigned_int
    unsigned_int_values eight_variants (subcell_3_7 [7]) 0 3 0
    = Ok false.
Proof. repeat split. Qed.

(** C6 (the code does not do what the claim and the documentation
    say). Object 0 of scenario B is allocated and carries the variants 0
    and 2 in that order. [nth_active_fe_index] does not return them:
    for [n = 0] it indexes the empty [active_fe_indices] outside its
    range, and for [n = 1], which is less than the number of variants
    carried, it fails with IndexOutOfRange. With [active_fe_indices]
    holding one entry per object it returns that entry for [n = 0],
    here 2 where the first variant stored is 0, and still fails for
    [n = 1]. *)
Lemma nth_active_fe_index_ignores_list :
  SubCellList.variants invalid_unsigned_int 1 (get_fe scenario_handler)
    (dofs scenario_B) (dof_offsets scenario_B) 0 = Some [0; 2] ∧
  nth_active_fe_index invalid_unsigned_int 1 2 scenario_handler scenario_B
    0 0 0 = Undefined ∧
  nth_active_fe_index invalid_unsigned_int 1 2 scenario_handler scenario_B
    0 0 1 = Throw (IndexOutOfRange 1) ∧
  nth_active_fe_index invalid_unsigned_int 1 2 scenario_handler
    {| active_fe_indices := [2; 1];
       dof_offsets := dof_offsets scenario_B;
       dofs := dofs scenario_B |} 0 0 0 = Ok 2 ∧
  nth_active_fe_index invalid_unsigned_int 1 2 scenario_handler
    {| active_fe_indices := [2; 1];
       dof_offsets := dof_offsets scenario_B;
       dofs := dofs scenario_B |} 0 0 1 = Throw (IndexOutOfRange 1).
Proof. repeat split. Qed.

(** ** The further properties at concrete stores *)

(** X1 on scenario A: 202 and then 203 written to slot 2 of cell 1. *)
Lemma set_dof_index_last_writer_wins_witness :
  ∃ self2,
    set_dof_index invalid_unsigned_int invalid_unsigned_int size_type_values
      2 scenario_handler
      {| active_fe_indices := [0; 1; 0];
         dof_offsets := [0; 2; 5];
         dofs := <[4%nat := 202]> (dofs scenario_A) |}
      1 1 2 203 0 = Ok self2 ∧
    get_dof_index invalid_unsigned_int invalid_unsigned_int size_type_values
      2 scenario_handler self2 1 1 2 0 = Ok 203 ∧
    set_dof_index invalid_unsigned_int invalid_unsigned_int size_type_values
      2 scenario_handler scenario_A 1 1 2 203 0 = Ok self2.
Proof.
  apply (set_dof_index_last_writer_wins invalid_unsigned_int
           invalid_unsigned_int size_type_values 2 scenario_handler
           scenario_A _ 1 1 2 202 203 0 0 0).
  reflexivity.
Defined.

(** X2 on scenario A: the unassigned value read from slot 2 of cell 1 is
    written back. *)
Lemma set_dof_index_of_read_value_witness :
  set_dof_index invalid_unsigned_int invalid_unsigned_int size_type_values
    2 scenario_handler scenario_A 1 1 2 invalid_unsigned_int 0
  = Ok scenario_A.
Proof.
  apply (set_dof_index_of_read_value invalid_unsigned_int
           invalid_unsigned_int size_type_values 2 scenario_handler
           scenario_A 1 1 2 invalid_unsigned_int 0 0).
  reflexivity.
Defined.

(** X4 on scenario A: the writes to slot 2 of cell 1 and to slot 1 of
    cell 2. *)
Lemma set_dof_index_commute_witness :
  ∃ self12,
    set_dof_index invalid_unsigned_int invalid_unsigned_int size_type_values
      2 scenario_handler
      {| active_fe_indices := [0; 1; 0];
         dof_offsets := [0; 2; 5];
         dofs := <[4%nat := 202]> (dofs scenario_A) |}
      2 0 1 301 0 = Ok self12 ∧
    set_dof_index invalid_unsigned_int invalid_unsigned_int size_type_values
      2 scenario_handler
      {| active_fe_indices := [0; 1; 0];
         dof_offsets := [0; 2; 5];
         dofs := <[6%nat := 301]> (dofs scenario_A) |}
      1 1 2 202 0 = Ok self12.
Proof.
  apply (set_dof_index_commute invalid_unsigned_int invalid_unsigned_int
           size_type_values 2 scenario_handler scenario_A _ _
           1 1 2 202 2 0 1 301 0 0).
  - apply scenario_A_blocks_reserved.
  - apply scenario_A_blocks_disjoint.
  - by vm_compute.
  - reflexivity.
  - reflexivity.
Defined.

(** X5 on scenario A: the layout after the write to slot 2 of cell 1. *)
Lemma set_dof_index_keeps_layout_witness :
  (blocks_reserved invalid_unsigned_int size_type_values 2 scenario_handler
     {| active_fe_indices := [0; 1; 0];
        dof_offsets := [0; 2; 5];
        dofs := <[4%nat := 202]> (dofs scenario_A) |} ↔
   blocks_reserved invalid_unsigned_int size_type_values 2
     scenario_handler scenario_A) ∧
  (blocks_disjoint invalid_unsigned_int 2 scenario_handler
     {| active_fe_indices := [0; 1; 0];
        dof_offsets := [0; 2; 5];
        dofs := <[4%nat := 202]> (dofs scenario_A) |} ↔
   blocks_disjoint invalid_unsigned_int 2 scenario_handler scenario_A).
Proof.
  apply (set_dof_index_keeps_layout invalid_unsigned_int
           invalid_unsigned_int size_type_values 2 scenario_handler
           scenario_A _ 1 1 2 202 0).
  reflexivity.
Defined.

(** X6 on scenario A: the queries on cell 2 after the write to cell 1. *)
Lemma set_dof_index_keeps_queries_witness :
  n_active_fe_indices invalid_unsigned_int 2 2 scenario_handler
    {| active_fe_indices := [0; 1; 0];
       dof_offsets := [0; 2; 5];
       dofs := <[4%nat := 202]> (dofs scenario_A) |} 2 =
    n_active_fe_indices invalid_unsigned_int 2 2 scenario_handler
      scenario_A 2 ∧
  nth_active_fe_index invalid_unsigned_int 2 2 scenario_handler
    {| active_fe_indices := [0; 1; 0];
       dof_offsets := [0; 2; 5];
       dofs := <[4%nat := 202]> (dofs scenario_A) |} 0 2 0 =
    nth_active_fe_index invalid_unsigned_int 2 2 scenario_handler
      scenario_A 0 2 0 ∧
  fe_index_is_active invalid_unsigned_int invalid_unsigned_int
    unsigned_int_values scenario_handler
    {| active_fe_indices := [0; 1; 0];
       dof_offsets := [0; 2; 5];
       dofs := <[4%nat := 202]> (dofs scenario_A) |} 2 0 0 =
    fe_index_is_active invalid_unsigned_int invalid_unsigned_int
      unsigned_int_values scenario_handler scenario_A 2 0 0.
Proof.
  refine (set_dof_index_keeps_queries invalid_unsigned_int
            invalid_unsigned_int size_type_values unsigned_int_values 2 2
            scenario_handler scenario_A _ 1 1 2 202 0 _ 2 0 0 0).
  reflexivity.
Defined.

(** X7 on scenario A: the read of variant 0 on cell 1, whose active
    variant is 1. *)
Lemma accessor_failures_witness :
  (0 = invalid_unsigned_int ∧ WrongVariant = UnspecifiedVariant) ∨
  (vector_size (get_fe scenario_handler) ≤ 0 ∧
   WrongVariant = VariantOutOfRange 0 (vector_size (get_fe scenario_handler)))
  ∨
  (∃ fe, get_fe scenario_handler !! N.to_nat 0 = Some fe ∧
         n_dofs_per_object fe 2 ≤ 0 ∧
         WrongVariant = LocalSlotOutOfRange 0 (n_dofs_per_object fe 2)) ∨
  (vector_size (dof_offsets scenario_A) ≤ 1 ∧
   WrongVariant =
     ObjectIndexOutOfRange 1 (vector_size (dof_offsets scenario_A))) ∨
  (dof_offsets scenario_A !! N.to_nat 1 = Some invalid_unsigned_int ∧
   WrongVariant = NoDoFsHere) ∨
  (∃ active, active_fe_indices scenario_A !! N.to_nat 1 = Some active ∧
             active ≠ 0 ∧ WrongVariant = WrongVariant).
Proof.
  apply (accessor_failures invalid_unsigned_int invalid_unsigned_int
           size_type_values 2 scenario_handler scenario_A 1 0 0 0 0
           WrongVariant).
  left. reflexivity.
Defined.

(** X8 on scenario A: the write to slot 3 of cell 1, whose variant places
    3 DoFs. *)
Lemma index_range_exception_is_out_of_range_witness :
  0 = 0 ∧ 3 ≤ 3.
Proof.
  apply (index_range_exception_is_out_of_range invalid_unsigned_int
           invalid_unsigned_int size_type_values unsigned_int_values 2 2
           scenario_handler scenario_A 1 1 3 202 0 0 3 0 3).
  right. left. reflexivity.
Defined.

(** X9 on scenario A: object 42 of a level of three objects. *)
Lemma object_index_out_of_range_witness :
  (∀ v lvl,
     fe_index_is_active invalid_unsigned_int invalid_unsigned_int
       unsigned_int_values scenario_handler scenario_A 42 v lvl =
       Throw (ObjectIndexOutOfRange 42
                (static_cast_unsigned_int unsigned_int_values
                   (vector_size (dof_offsets scenario_A)))))
  ∧
  ((2 ≤ 2)%nat →
   n_active_fe_indices invalid_unsigned_int 2 2 scenario_handler
     scenario_A 42 =
     Throw (ObjectIndexOutOfRange 42 (vector_size (dof_offsets scenario_A)))
   ∧
   ∀ lvl n,
     nth_active_fe_index invalid_unsigned_int 2 2 scenario_handler
       scenario_A lvl 42 n =
       Throw (ObjectIndexOutOfRange 42
                (vector_size (dof_offsets scenario_A))))
  ∧
  (∀ v l g lvl fe,
     v ≠ invalid_unsigned_int →
     get_fe scenario_handler !! N.to_nat v = Some fe →
     l < n_dofs_per_object fe 2 →
     get_dof_index invalid_unsigned_int invalid_unsigned_int
       size_type_values 2 scenario_handler scenario_A 42 v l lvl =
       Throw (ObjectIndexOutOfRange 42
                (vector_size (dof_offsets scenario_A))) ∧
     set_dof_index invalid_unsigned_int invalid_unsigned_int
       size_type_values 2 scenario_handler scenario_A 42 v l g lvl =
       Throw (ObjectIndexOutOfRange 42
                (vector_size (dof_offsets scenario_A)))).
Proof.
  apply (object_index_out_of_range invalid_unsigned_int
           invalid_unsigned_int size_type_values unsigned_int_values 2 2
           scenario_handler scenario_A 42).
  by vm_compute.
Defined.

(** X10 on scenario A: variant 1 on cell 1. *)
Lemma active_queries_agree_witness :
  (fe_index_is_active invalid_unsigned_int invalid_unsigned_int
     unsigned_int_values scenario_handler scenario_A 1 1 0 = Ok true ↔
   nth_active_fe_index invalid_unsigned_int 2 2 scenario_handler
     scenario_A 0 1 0 = Ok 1) ∧
  (fe_index_is_active invalid_unsigned_int invalid_unsigned_int
     unsigned_int_values scenario_handler scenario_A 1 1 0 = Ok true →
   n_active_fe_indices invalid_unsigned_int 2 2 scenario_handler
     scenario_A 1 = Ok 1).
Proof.
  apply (active_queries_agree invalid_unsigned_int invalid_unsigned_int
           unsigned_int_values 2 2 scenario_handler scenario_A 1 1 0 0);
    first [lia | by vm_compute].
Defined.

(** X11 on scenario A: the read of slot 2 of cell 1. *)
Lemma successful_read_means_active_witness :
  fe_index_is_active invalid_unsigned_int invalid_unsigned_int
    unsigned_int_values scenario_handler scenario_A 1 1 0 = Ok true.
Proof.
  apply (successful_read_means_active invalid_unsigned_int
           invalid_unsigned_int size_type_values unsigned_int_values 2
           scenario_handler scenario_A 1 1 2 0 0 invalid_unsigned_int).
  reflexivity.
Defined.

(** X12 on scenario A: variant 0 is not the active variant of cell 1. *)
Lemma inactive_variant_is_refused_witness :
  get_dof_index invalid_unsigned_int invalid_unsigned_int size_type_values
    2 scenario_handler scenario_A 1 0 1 0 = Throw WrongVariant ∧
  set_dof_index invalid_unsigned_int invalid_unsigned_int size_type_values
    2 scenario_handler scenario_A 1 0 1 7 0 = Throw WrongVariant.
Proof.
  apply (inactive_variant_is_refused invalid_unsigned_int
           invalid_unsigned_int size_type_values unsigned_int_values 2
           scenario_handler scenario_A 1 0 1 7 0 0 (fe_with 2));
    reflexivity.
Defined.

(** X13 on scenario B, whose [active_fe_indices] is empty. *)
Lemma missing_active_entry_witness :
  fe_index_is_active invalid_unsigned_int invalid_unsigned_int
    unsigned_int_values scenario_handler scenario_B 0 0 0
    = Throw ExcInternalError ∧
  get_dof_index invalid_unsigned_int invalid_unsigned_int size_type_values
    1 scenario_handler scenario_B 0 0 1 0 = Undefined ∧
  set_dof_index invalid_unsigned_int invalid_unsigned_int size_type_values
    1 scenario_handler scenario_B 0 0 1 7 0 = Undefined ∧
  ((1 ≤ 2)%nat →
   nth_active_fe_index invalid_unsigned_int 1 2 scenario_handler
     scenario_B 0 0 0 = Undefined).
Proof.
  apply (missing_active_entry invalid_unsigned_int invalid_unsigned_int
           size_type_values unsigned_int_values 1 2 scenario_handler
           scenario_B 0 0 1 7 0 (fe_with 2) 0); by vm_compute.
Defined.

(** X14 on a level of one cell without DoFs. *)
Lemma object_without_dofs_witness :
  (∀ v l g lvl fe,
     v ≠ invalid_unsigned_int →
     get_fe scenario_handler !! N.to_nat v = Some fe →
     l < n_dofs_per_object fe 2 →
     get_dof_index invalid_unsigned_int invalid_unsigned_int
       size_type_values 2 scenario_handler
       {| active_fe_indices := [0];
          dof_offsets := [invalid_unsigned_int];
          dofs := [] |} 0 v l lvl
       = Throw NoDoFsHere ∧
     set_dof_index invalid_unsigned_int invalid_unsigned_int
       size_type_values 2 scenario_handler
       {| active_fe_indices := [0];
          dof_offsets := [invalid_unsigned_int];
          dofs := [] |} 0 v l g lvl
       = Throw NoDoFsHere) ∧
  (∀ lvl n,
     nth_active_fe_index invalid_unsigned_int 2 2 scenario_handler
       {| active_fe_indices := [0];
          dof_offsets := [invalid_unsigned_int];
          dofs := [] |} lvl 0 n = Throw NoDoFsHere).
Proof.
  apply (object_without_dofs invalid_unsigned_int invalid_unsigned_int
           size_type_values 2 2 scenario_handler
           {| active_fe_indices := [0];
              dof_offsets := [invalid_unsigned_int];
              dofs := [] |} 0).
  reflexivity.
Defined.
